(** * A shallow embedding of the preview backend (server.js)

    The server keeps a registry [containers] from workspace identifiers
    (the [previewId] of the source) to container objects.  A container
    owns its directory below the persistent volume, the set of attached
    WebSocket clients, an in-memory file cache and the map of running
    child processes.  Handlers of three kinds mutate this state: the
    WebSocket callbacks, the HTTP routes and the listeners registered on
    child processes.

    The embedding follows [src/server.js]; where the sibling copy in
    [src/unnamed/part_000] differs in a way a statement below depends on,
    the copy gets a definition of its own, named after it.

    Each callback is a function on an explicit [State]; a callback runs to
    its end before the next one starts, as on Node's event loop.  What the
    server does to the outside is recorded in the state: [sent] for
    [ws.send], [stdin_log] for [stdin.write], [timers] for [setTimeout],
    [disk] for the [fs] calls.  Left out are [/api/health], the second
    pair of [/preview] routes (registered after the first for the same
    paths), the CORS and rate-limit middleware, the console log and the
    [timestamp] fields. *)

From Stdlib Require Import ZArith Ascii String List DecimalString.
From stdpp Require Import base option list strings gmap fin_maps.

Local Open Scope string_scope.
Local Open Scope list_scope.

(* ===================================================================== *)
(** ** Node's [path] module (POSIX flavour) *)
(* ===================================================================== *)

(** The repository calls [path.join] and [path.dirname] of Node's standard
    library.  They are modelled on segments: a path is cut at every ['/'],
    the segments are normalised with a stack, and the result is glued
    together again. *)
Module path.

Definition slash : ascii := "/"%char.

(** [split_slash "a//b/"] is ["a"; ""; "b"; ""]: every ['/'] ends a
    segment, so a string with [n] slashes has [n+1] segments. *)
Fixpoint split_slash (s : string) : list string :=
  match s with
  | EmptyString => [EmptyString]
  | String c rest =>
      if Ascii.eqb c slash then EmptyString :: split_slash rest
      else match split_slash rest with
           | [] => [String c EmptyString]
           | seg :: segs => String c seg :: segs
           end
  end.

Fixpoint join_slash (segs : list string) : string :=
  match segs with
  | [] => EmptyString
  | [seg] => seg
  | seg :: rest => seg +:+ "/" +:+ join_slash rest
  end.

Definition is_absolute (s : string) : bool :=
  match s with
  | String c _ => Ascii.eqb c slash
  | EmptyString => false
  end.

Fixpoint ends_with_slash (s : string) : bool :=
  match s with
  | EmptyString => false
  | String c EmptyString => Ascii.eqb c slash
  | String _ rest => ends_with_slash rest
  end.

(** [normalizeString] of Node: the stack [acc] holds the segments kept
    so far, innermost first.  Empty segments and ["."] are dropped; [".."]
    removes the segment below it, and at the bottom of the stack it is
    kept only for relative paths ([allowAboveRoot]). *)
Fixpoint normalize_segs (allowAboveRoot : bool) (acc : list string)
         (segs : list string) : list string :=
  match segs with
  | [] => rev acc
  | seg :: rest =>
      if String.eqb seg "" then normalize_segs allowAboveRoot acc rest
      else if String.eqb seg "." then normalize_segs allowAboveRoot acc rest
      else if String.eqb seg ".." then
        match acc with
        | top :: below =>
            if String.eqb top ".."
            then normalize_segs allowAboveRoot (if allowAboveRoot then ".." :: acc else acc) rest
            else normalize_segs allowAboveRoot below rest
        | [] =>
            normalize_segs allowAboveRoot (if allowAboveRoot then [".."] else []) rest
        end
      else normalize_segs allowAboveRoot (seg :: acc) rest
  end.

(** [path.normalize]. *)
Definition normalize (p : string) : string :=
  if String.eqb p "" then "."
  else
    let isAbsolute := is_absolute p in
    let trailingSeparator := ends_with_slash p in
    let res := join_slash (normalize_segs (negb isAbsolute) [] (split_slash p)) in
    if String.eqb res "" then
      (if isAbsolute then "/" else if trailingSeparator then "./" else ".")
    else
      let res := if trailingSeparator then res +:+ "/" else res in
      if isAbsolute then "/" +:+ res else res.

(** [path.join(a, b)]: the non-empty arguments are glued with ['/'] and
    the result is normalised. *)
Definition join (a b : string) : string :=
  match String.eqb a "", String.eqb b "" with
  | true, true => "."
  | true, false => normalize b
  | false, true => normalize a
  | false, false => normalize (a +:+ "/" +:+ b)
  end.

(** The segments the operating system walks when it resolves an absolute
    path: the non-empty ones. *)
Definition segments (p : string) : list string :=
  filter (fun seg => seg <> "") (split_slash p).

(** [path.dirname] on the absolute, normalised paths [join] returns when
    its first argument is a container directory: the last segment is cut
    off, a trailing ['/'] being ignored. *)
Definition dirname (p : string) : string :=
  "/" +:+ join_slash (removelast (segments p)).

End path.

(* ===================================================================== *)
(** ** JSON values as the handlers see them *)
(* ===================================================================== *)

(** What [JSON.parse] and [express.json()] hand to the handlers.  Numbers
    are the integral ones; an object keeps its members in source order. *)
#[warnings="-register-all"]
Inductive json : Type :=
| JNull
| JBool (b : bool)
| JNum (z : Z)
| JStr (s : string)
| JArr (items : list json)
| JObj (members : list (string * json)).

Module js.

(** Member lookup in a parsed object: of two members with one key,
    [JSON.parse] keeps the later one. *)
Fixpoint member (k : string) (members : list (string * json)) : option json :=
  match members with
  | [] => None
  | (k', v) :: rest =>
      match member k rest with
      | Some later => Some later
      | None => if String.eqb k' k then Some v else None
      end
  end.

(** [data.k].  The outer [None] is the [TypeError] of a property access
    on [null]; the inner [None] is [undefined]. *)
Definition prop (data : json) (k : string) : option (option json) :=
  match data with
  | JNull => None
  | JObj members => Some (member k members)
  | _ => Some None
  end.

(** ToBoolean; [None] is [undefined]. *)
Definition truthy (v : option json) : bool :=
  match v with
  | None => false
  | Some JNull => false
  | Some (JBool b) => b
  | Some (JNum z) => negb (z =? 0)%Z
  | Some (JStr s) => negb (String.eqb s "")
  | Some (JArr _) => true
  | Some (JObj _) => true
  end.

(** [v === 'literal']. *)
Definition is_str (v : option json) (lit : string) : bool :=
  match v with
  | Some (JStr s) => String.eqb s lit
  | _ => false
  end.

Definition string_of_Z (z : Z) : string :=
  NilZero.string_of_int (Z.to_int z).

Fixpoint join_comma (parts : list string) : string :=
  match parts with
  | [] => ""
  | [x] => x
  | x :: rest => x +:+ "," +:+ join_comma rest
  end.

(** [v.toString()]; [None] when the call throws: on [null], and on an
    object whose own member ["toString"] hides the inherited method (a
    parsed member is never callable).  Inside an array [null] prints as
    the empty string. *)
Fixpoint toString (v : json) : option string :=
  match v with
  | JNull => None
  | JBool b => Some (if b then "true" else "false")
  | JNum z => Some (string_of_Z z)
  | JStr s => Some s
  | JArr items =>
      let fix parts (l : list json) : option (list string) :=
        match l with
        | [] => Some []
        | x :: rest =>
            match (match x with JNull => Some "" | _ => toString x end), parts rest with
            | Some sx, Some srest => Some (sx :: srest)
            | _, _ => None
            end
        end in
      match parts items with
      | Some ps => Some (join_comma ps)
      | None => None
      end
  | JObj members =>
      match member "toString" members with
      | Some _ => None
      | None => Some "[object Object]"
      end
  end.

End js.

(* ===================================================================== *)
(** ** The file system below the server *)
(* ===================================================================== *)

(** The persistent volume, as far as the [fs] calls of the handlers can
    observe it: a finite map from absolute paths (as segment lists) to
    nodes.  The root is always a directory.  A call that throws in Node
    returns [None].  A file holds the string that was written: the UTF-8
    encoding on the way in and the decoding on the way out are taken to
    cancel. *)
Module fs.

Inductive node : Type :=
| File (content : string)
| Dir.

Definition lookup_segs (d : gmap (list string) node) (segs : list string) : option node :=
  match segs with
  | [] => Some Dir
  | _ => d !! segs
  end.

(** Path resolution: a trailing ['/'] only resolves on a directory. *)
Definition resolve (d : gmap (list string) node) (p : string) : option node :=
  match lookup_segs d (path.segments p) with
  | Some (File c) => if path.ends_with_slash p then None else Some (File c)
  | r => r
  end.

Definition existsSync (d : gmap (list string) node) (p : string) : bool :=
  match resolve d p with Some _ => true | None => false end.

(** [fs.statSync(p).isDirectory()]. *)
Definition isDirectory (d : gmap (list string) node) (p : string) : option bool :=
  match resolve d p with
  | Some Dir => Some true
  | Some (File _) => Some false
  | None => None
  end.

(** [mkdir -p]: walks down from the root, creating what is missing; a
    file in the way makes the call throw. *)
Fixpoint mkdirp (d : gmap (list string) node) (pre segs : list string)
  : option (gmap (list string) node) :=
  match segs with
  | [] => Some d
  | seg :: rest =>
      let here := pre ++ [seg] in
      match d !! here with
      | Some (File _) => None
      | Some Dir => mkdirp d here rest
      | None => mkdirp (<[here := Dir]> d) here rest
      end
  end.

(** [fs.mkdirSync(p, { recursive })]. *)
Definition mkdirSync (d : gmap (list string) node) (p : string) (recursive : bool)
  : option (gmap (list string) node) :=
  if recursive then mkdirp d [] (path.segments p)
  else
    let segs := path.segments p in
    match segs, lookup_segs d (removelast segs), lookup_segs d segs with
    | _ :: _, Some Dir, None => Some (<[segs := Dir]> d)
    | _, _, _ => None
    end.

(** [fs.writeFileSync(p, content)]: the parent must be a directory and
    the target must not be one. *)
Definition writeFileSync (d : gmap (list string) node) (p content : string)
  : option (gmap (list string) node) :=
  let segs := path.segments p in
  if path.ends_with_slash p then None
  else
    match segs, lookup_segs d (removelast segs), lookup_segs d segs with
    | _ :: _, Some Dir, Some (File _) => Some (<[segs := File content]> d)
    | _ :: _, Some Dir, None => Some (<[segs := File content]> d)
    | _, _, _ => None
    end.

(** [fs.readFileSync(p, 'utf-8')]. *)
Definition readFileSync (d : gmap (list string) node) (p : string) : option string :=
  match resolve d p with
  | Some (File c) => Some c
  | _ => None
  end.

(** [fs.unlinkSync(p)]. *)
Definition unlinkSync (d : gmap (list string) node) (p : string)
  : option (gmap (list string) node) :=
  match resolve d p with
  | Some (File _) => Some (delete (path.segments p) d)
  | _ => None
  end.

(** [fs.rmdirSync(p, { recursive })]: without [recursive] the directory
    must be empty; the root cannot be removed. *)
Definition rmdirSync (d : gmap (list string) node) (p : string) (recursive : bool)
  : option (gmap (list string) node) :=
  let segs := path.segments p in
  match segs, d !! segs with
  | _ :: _, Some Dir =>
      if recursive
      then Some (filter (fun entry : list string * node => ~ segs `prefix_of` entry.1) d)
      else if decide (map_Forall (fun (k : list string) (_ : node) =>
                                    segs `prefix_of` k -> k = segs) d)
           then Some (delete segs d)
           else None
  | _, _ => None
  end.

End fs.

(* ===================================================================== *)
(** ** Messages on the wire *)
(* ===================================================================== *)

(** The value of an [exitCode] field: a number, the name of a system error
    ([error.code] of a failed [exec]), or [null]. *)
Inductive ExitCode : Type :=
| CodeNum (z : Z)
| CodeName (name : string)
| CodeNull.

Inductive Stream : Type := stdout | stderr.

(** The events the server sends, by their [type] tag.  The [timestamp]
    fields ([Date.now()]) are left out.  [connection-established] carries
    [processId] and [clientCount] only in the copy of part_000. *)
Inductive Event : Type :=
| connection_established (previewId : string) (extra : option (option string * nat))
| error_event (error : string) (previewId : option string) (message : option string)
| refresh_preview (previewId : string)
| preview_ready (previewId url : string)
| file_change (previewId path : string)
| process_output (previewId processId output : string) (stream : Stream)
| process_completed (previewId processId : string) (exitCode : ExitCode)
                    (out err : string).

(* ===================================================================== *)
(** ** Server state *)
(* ===================================================================== *)

(** How a child was started: [spawn] for the interactive shell, [exec] for
    everything else. *)
Inductive Launch : Type := Spawned | Execed.

(** A child process object together with what the listeners registered on
    it close over: the container object ([owner]), [previewId] and
    [processId]. *)
Record ChildProcess : Type := {
  launch : Launch;
  command : string;
  args : list string;
  cwd : string;
  child_env : gmap string string;
  owner : nat;
  owner_previewId : string;
  processId : string
}.

(** [process.stdin] is a pipe for both ways of starting a child; [resize]
    is the method added to a spawned shell only. *)
Definition has_stdin (p : ChildProcess) : bool := true.

Definition has_resize (p : ChildProcess) : bool :=
  match launch p with Spawned => true | Execed => false end.

(** The object [createContainer] returns.  [clients] is a [Set] of sockets
    in insertion order; sockets are numbered. *)
Record Container : Type := {
  id : string;
  dir : string;
  clients : list nat;
  files : gmap string string;
  processes : gmap string ChildProcess
}.

Definition set_clients (f : list nat -> list nat) (c : Container) : Container :=
  {| id := id c; dir := dir c; clients := f (clients c);
     files := files c; processes := processes c |}.

Definition set_files (f : gmap string string -> gmap string string) (c : Container)
  : Container :=
  {| id := id c; dir := dir c; clients := clients c;
     files := f (files c); processes := processes c |}.

Definition set_processes
  (f : gmap string ChildProcess -> gmap string ChildProcess) (c : Container)
  : Container :=
  {| id := id c; dir := dir c; clients := clients c;
     files := files c; processes := f (processes c) |}.

(** Everything the handlers read or write.
    - [containers] is the global [Map] from [previewId] to a container
      object; objects live in [objects] and are named by references, so
      that a closure can keep one the registry has dropped;
    - [disk] is the file system, [env] is [process.env];
    - [open_ws] are the sockets whose [readyState] is [OPEN];
    - [sent] and [stdin_log] record, in order, every [ws.send] and every
      [stdin.write];
    - [timers] lists the idle timers armed so far ([setTimeout] calls),
      by [previewId]. *)
Record State : Type := {
  containers : gmap string nat;
  objects : gmap nat Container;
  next_ref : nat;
  disk : gmap (list string) fs.node;
  env : gmap string string;
  open_ws : gset nat;
  sent : list (nat * Event);
  stdin_log : list (string * string);
  timers : list string
}.

Definition set_containers (f : gmap string nat -> gmap string nat) (st : State) : State :=
  {| containers := f (containers st); objects := objects st; next_ref := next_ref st;
     disk := disk st; env := env st; open_ws := open_ws st; sent := sent st;
     stdin_log := stdin_log st; timers := timers st |}.

Definition set_objects (f : gmap nat Container -> gmap nat Container) (st : State) : State :=
  {| containers := containers st; objects := f (objects st); next_ref := next_ref st;
     disk := disk st; env := env st; open_ws := open_ws st; sent := sent st;
     stdin_log := stdin_log st; timers := timers st |}.

Definition set_disk (d : gmap (list string) fs.node) (st : State) : State :=
  {| containers := containers st; objects := objects st; next_ref := next_ref st;
     disk := d; env := env st; open_ws := open_ws st; sent := sent st;
     stdin_log := stdin_log st; timers := timers st |}.

Definition set_env (f : gmap string string -> gmap string string) (st : State) : State :=
  {| containers := containers st; objects := objects st; next_ref := next_ref st;
     disk := disk st; env := f (env st); open_ws := open_ws st; sent := sent st;
     stdin_log := stdin_log st; timers := timers st |}.

Definition set_open_ws (f : gset nat -> gset nat) (st : State) : State :=
  {| containers := containers st; objects := objects st; next_ref := next_ref st;
     disk := disk st; env := env st; open_ws := f (open_ws st); sent := sent st;
     stdin_log := stdin_log st; timers := timers st |}.

Definition set_timers (f : list string -> list string) (st : State) : State :=
  {| containers := containers st; objects := objects st; next_ref := next_ref st;
     disk := disk st; env := env st; open_ws := open_ws st; sent := sent st;
     stdin_log := stdin_log st; timers := f (timers st) |}.

(** [ws.send(JSON.stringify(event))], recorded. *)
Definition push_sent (msgs : list (nat * Event)) (st : State) : State :=
  {| containers := containers st; objects := objects st; next_ref := next_ref st;
     disk := disk st; env := env st; open_ws := open_ws st; sent := sent st ++ msgs;
     stdin_log := stdin_log st; timers := timers st |}.

(** [process.stdin.write(input)], recorded. *)
Definition push_stdin (pid input : string) (st : State) : State :=
  {| containers := containers st; objects := objects st; next_ref := next_ref st;
     disk := disk st; env := env st; open_ws := open_ws st; sent := sent st;
     stdin_log := stdin_log st ++ [(pid, input)]; timers := timers st |}.

(** The server right after start: nothing registered, an empty volume. *)
Definition initial (e : gmap string string) : State :=
  {| containers := ∅; objects := ∅; next_ref := 0; disk := ∅; env := e;
     open_ws := ∅; sent := []; stdin_log := []; timers := [] |}.

(** [containers.get(previewId)]. *)
Definition containers_get (st : State) (previewId : string) : option (nat * Container) :=
  match containers st !! previewId with
  | Some r =>
      match objects st !! r with
      | Some c => Some (r, c)
      | None => None
      end
  | None => None
  end.

(** The persistent volume of fly.toml. *)
Definition data_root : string := "/data".

(** [createContainer(previewId)]: makes the directory and allocates the
    object; [None] when [fs.mkdirSync] throws. *)
Definition createContainer (previewId : string) (st : State) : option (nat * State) :=
  let containerDir := path.join data_root previewId in
  match fs.mkdirSync (disk st) containerDir true with
  | None => None
  | Some d =>
      let r := next_ref st in
      let c := {| id := previewId; dir := containerDir; clients := [];
                  files := ∅; processes := ∅ |} in
      Some (r, {| containers := containers st; objects := <[r := c]> (objects st);
                  next_ref := S r; disk := d; env := env st; open_ws := open_ws st;
                  sent := sent st; stdin_log := stdin_log st; timers := timers st |})
  end.

(** The recurring
    [let container = containers.get(previewId);
     if (!container) { container = createContainer(previewId);
                       containers.set(previewId, container); }]. *)
Definition get_or_create (previewId : string) (st : State) : option (nat * State) :=
  match containers_get st previewId with
  | Some (r, _) => Some (r, st)
  | None =>
      match createContainer previewId st with
      | Some (r, st') => Some (r, set_containers (insert previewId r) st')
      | None => None
      end
  end.

(** [broadcastToContainer(previewId, data)]: one [send] per client of the
    registered container whose socket is open, in the order of the set. *)
Definition broadcastToContainer (previewId : string) (data : Event) (st : State) : State :=
  match containers_get st previewId with
  | None => st
  | Some (_, container) =>
      push_sent
        (map (fun client => (client, data))
             (filter (fun client => client ∈ open_ws st) (clients container)))
        st
  end.

(** [set.add(ws)] and [set.delete(ws)] on the insertion-ordered [Set]. *)
Definition set_add (ws : nat) (s : list nat) : list nat :=
  if decide (ws ∈ s) then s else s ++ [ws].

Definition set_delete (ws : nat) (s : list nat) : list nat :=
  filter (fun x => x <> ws) s.

(* ===================================================================== *)
(** ** WebSocket handlers (server.js) *)
(* ===================================================================== *)

(** [ws.send] throws on a socket that is not open. *)
Definition ws_send (ws : nat) (data : Event) (st : State) : option State :=
  if decide (ws ∈ open_ws st) then Some (push_sent [(ws, data)] st) else None.

(** How the ['connection'] callback ends: the socket is attached, or it is
    closed at once for want of a [previewId], or an exception leaves the
    callback (nothing catches it in server.js). *)
Inductive Connection : Type :=
| Attached (st : State)
| Refused (st : State)
| Uncaught.

(** [wss.on('connection', (ws, req) => ...)]: [previewId] is the query
    parameter, [None] when the URL has none.  The transport delivers the
    socket open. *)
Definition on_connection (ws : nat) (previewId : option string) (st : State) : Connection :=
  let st := set_open_ws (fun s => {[ws]} ∪ s) st in
  match previewId with
  | None => Refused (set_open_ws (fun s => s ∖ {[ws]}) st)
  | Some previewId =>
      if String.eqb previewId "" then Refused (set_open_ws (fun s => s ∖ {[ws]}) st)
      else
        match get_or_create previewId st with
        | None => Uncaught
        | Some (r, st) =>
            let st := set_objects (alter (set_clients (set_add ws)) r) st in
            match ws_send ws (connection_established previewId None) st with
            | Some st => Attached st
            | None => Uncaught
            end
        end
  end.

(** The same callback in part_000: the acknowledgement carries the
    [processId] query parameter and [container.clients.size], and a
    [try]/[catch] around the body closes the socket on an exception. *)
Definition on_connection_part000 (ws : nat) (previewId processId : option string)
           (st : State) : Connection :=
  let st := set_open_ws (fun s => {[ws]} ∪ s) st in
  match previewId with
  | None => Refused (set_open_ws (fun s => s ∖ {[ws]}) st)
  | Some previewId =>
      if String.eqb previewId "" then Refused (set_open_ws (fun s => s ∖ {[ws]}) st)
      else
        match get_or_create previewId st with
        | None => Refused (set_open_ws (fun s => s ∖ {[ws]}) st)
        | Some (r, st) =>
            let st := set_objects (alter (set_clients (set_add ws)) r) st in
            let clientCount :=
              match objects st !! r with
              | Some container => length (clients container)
              | None => 0
              end in
            match ws_send ws (connection_established previewId
                                (Some (processId, clientCount))) st with
            | Some st => Attached st
            | None => Refused (set_open_ws (fun s => s ∖ {[ws]}) st)
            end
        end
  end.

(** The [terminal-input] branch.  [stdin.write] throws on anything but a
    string; the handler's [catch] swallows that. *)
Definition terminal_input (container : Container) (data : json) (st : State) : State :=
  match js.prop data "processId", js.prop data "input" with
  | Some pid, Some input =>
      if negb (js.truthy pid) || negb (js.truthy input) then st
      else
        match pid with
        | Some (JStr pid) =>
            match processes container !! pid with
            | None => st
            | Some process =>
                if has_stdin process then
                  match input with
                  | Some (JStr input) => push_stdin pid input st
                  | _ => st
                  end
                else st
            end
        | _ => st
        end
  | _, _ => st
  end.

(** [childProcess.resize({ cols, rows })]: writes the geometry into the
    environment of the server process itself.  Its own [try]/[catch] keeps
    what was assigned before a [toString] that throws. *)
Definition resize (cols rows : json) (st : State) : State :=
  match js.toString cols with
  | None => st
  | Some c =>
      let st := set_env (insert "COLUMNS" c) st in
      match js.toString rows with
      | None => st
      | Some r => set_env (insert "LINES" r) st
      end
  end.

(** The [terminal-resize] branch. *)
Definition terminal_resize (container : Container) (data : json) (st : State) : State :=
  match js.prop data "processId", js.prop data "cols", js.prop data "rows" with
  | Some pid, Some cols, Some rows =>
      if negb (js.truthy pid) || negb (js.truthy cols) || negb (js.truthy rows) then st
      else
        match pid, cols, rows with
        | Some (JStr pid), Some cols, Some rows =>
            match processes container !! pid with
            | None => st
            | Some process =>
                if has_resize process then resize cols rows st else st
            end
        | _, _, _ => st
        end
  | _, _, _ => st
  end.

(** [ws.on('message', ...)] for the socket [ws] of a connection to
    [previewId].  [parsed] is the outcome of [JSON.parse]: [None] when it
    throws.  The [catch] of the handler only logs, so an exception leaves
    the state as it was when it was thrown. *)
Definition on_message (ws : nat) (previewId : string) (parsed : option json)
           (st : State) : State :=
  match parsed with
  | None => st
  | Some data =>
      match js.prop data "type" with
      | None => st
      | Some type =>
          if negb (js.truthy type) then
            match ws_send ws (error_event "Missing type field in message" None None) st with
            | Some st' => st'
            | None => st
            end
          else
            match containers_get st previewId with
            | None =>
                match ws_send ws (error_event "Container not found" (Some previewId) None) st with
                | Some st' => st'
                | None => st
                end
            | Some (_, container) =>
                if js.is_str type "file-change" then
                  broadcastToContainer previewId (refresh_preview previewId) st
                else if js.is_str type "preview-ready" then
                  broadcastToContainer previewId
                    (preview_ready previewId ("/preview/" +:+ previewId)) st
                else if js.is_str type "terminal-input" then
                  terminal_input container data st
                else if js.is_str type "terminal-resize" then
                  terminal_resize container data st
                else st
            end
      end
  end.

(** [ws.on('close', ...)].  The socket is closed by then.  When the last
    client leaves, the idle timer for [previewId] is armed. *)
Definition on_close (ws : nat) (previewId : string) (st : State) : State :=
  let st := set_open_ws (fun s => s ∖ {[ws]}) st in
  match containers_get st previewId with
  | Some (r, container) =>
      let remaining := set_delete ws (clients container) in
      let st := set_objects (alter (set_clients (set_delete ws)) r) st in
      match remaining with
      | [] => set_timers (fun t => t ++ [previewId]) st
      | _ :: _ => st
      end
  | None => st
  end.

(** The callback of that [setTimeout], five minutes later:
    [if (containers.get(previewId)?.clients.size === 0)
       containers.delete(previewId)]. *)
Definition on_idle_timeout (previewId : string) (st : State) : State :=
  match containers_get st previewId with
  | Some (_, container) =>
      match clients container with
      | [] => set_containers (delete previewId) st
      | _ :: _ => st
      end
  | None => st
  end.

(** [ws.on('error', ...)]: tells the client, if the socket is still open. *)
Definition on_error (ws : nat) (message : string) (st : State) : State :=
  if decide (ws ∈ open_ws st) then
    push_sent [(ws, error_event "WebSocket connection error" None (Some message))] st
  else st.

(* ===================================================================== *)
(** ** HTTP routes (server.js) *)
(* ===================================================================== *)

(** What a route answers.  [failure 500] stands for the body built from
    [error.message], and for the answer of express when an exception
    leaves the route. *)
Inductive Response : Type :=
| success
| content_of (content : string)
| started (processId : string)
| failure (status : nat) (error : string).

(** [POST /api/files/write/:previewId] with body [{ path, content }];
    [content = None] is a body without that member.  When
    [createContainer] throws, the exception leaves the route and express
    answers 500; inside the [try] the [catch] answers 500 and keeps what
    was done before the throw.  ([path] and [content] are strings: with
    any other JSON value [path.join] or [fs.writeFileSync] throws.) *)
Definition files_write (previewId filePath : string) (content : option string)
           (st : State) : State * Response :=
  match content with
  | None => (st, failure 400 "Missing required parameters")
  | Some content =>
      if String.eqb filePath "" then (st, failure 400 "Missing required parameters")
      else
        match get_or_create previewId st with
        | None => (st, failure 500 "")
        | Some (r, st) =>
            match objects st !! r with
            | None => (st, failure 500 "")
            | Some container =>
                let fullPath := path.join (dir container) filePath in
                match fs.mkdirSync (disk st) (path.dirname fullPath) true with
                | None => (st, failure 500 "")
                | Some d =>
                    let st := set_disk d st in
                    match fs.writeFileSync d fullPath content with
                    | None => (st, failure 500 "")
                    | Some d =>
                        let st := set_disk d st in
                        let st := set_objects
                                    (alter (set_files (insert filePath content)) r) st in
                        let st := broadcastToContainer previewId
                                    (file_change previewId filePath) st in
                        (st, success)
                    end
                end
            end
        end
  end.

(** [POST /api/files/mkdir/:previewId] with body [{ path, recursive }]. *)
Definition files_mkdir (previewId dirPath : string) (recursive : bool)
           (st : State) : State * Response :=
  if String.eqb dirPath "" then (st, failure 400 "Missing path parameter")
  else
    match get_or_create previewId st with
    | None => (st, failure 500 "")
    | Some (r, st) =>
        match objects st !! r with
        | None => (st, failure 500 "")
        | Some container =>
            match fs.mkdirSync (disk st) (path.join (dir container) dirPath) recursive with
            | None => (st, failure 500 "")
            | Some d => (set_disk d st, success)
            end
        end
    end.

(** [POST /api/files/rm/:previewId] with body [{ path, recursive }]. *)
Definition files_rm (previewId filePath : string) (recursive : bool)
           (st : State) : State * Response :=
  if String.eqb filePath "" then (st, failure 400 "Missing path parameter")
  else
    match containers_get st previewId with
    | None => (st, failure 404 "Container not found")
    | Some (r, container) =>
        let fullPath := path.join (dir container) filePath in
        if negb (fs.existsSync (disk st) fullPath)
        then (st, failure 404 "File or directory not found")
        else
          let removed :=
            match fs.isDirectory (disk st) fullPath with
            | Some true => fs.rmdirSync (disk st) fullPath recursive
            | Some false => fs.unlinkSync (disk st) fullPath
            | None => None
            end in
          match removed with
          | None => (st, failure 500 "")
          | Some d =>
              let st := set_disk d st in
              let st := set_objects (alter (set_files (delete filePath)) r) st in
              let st := broadcastToContainer previewId
                          (file_change previewId filePath) st in
              (st, success)
          end
    end.

(** [GET /api/files/read/:previewId?path=...]. *)
Definition files_read (previewId filePath : string) (st : State) : State * Response :=
  if String.eqb filePath "" then (st, failure 400 "Missing path parameter")
  else
    match containers_get st previewId with
    | None => (st, failure 404 "Container not found")
    | Some (r, container) =>
        match files container !! filePath with
        | Some cached => (st, content_of cached)
        | None =>
            let fullPath := path.join (dir container) filePath in
            if fs.existsSync (disk st) fullPath then
              match fs.readFileSync (disk st) fullPath with
              | None => (st, failure 500 "")
              | Some content =>
                  (set_objects (alter (set_files (insert filePath content)) r) st,
                   content_of content)
              end
            else (st, failure 404 "File not found")
        end
    end.

(** The environment handed to a child:
    [{ ...process.env, TERM, COLORTERM, TERM_PROGRAM }], then [COLUMNS]
    and [LINES] when the request brings a usable [terminal]; [None] when a
    [toString] throws. *)
Definition exec_env (terminal : option json) (st : State) : option (gmap string string) :=
  let base := <["TERM_PROGRAM" := "bolt"]>
                (<["COLORTERM" := "truecolor"]>
                   (<["TERM" := "xterm-256color"]> (env st))) in
  match terminal with
  | None => Some base
  | Some t =>
      if negb (js.truthy (Some t)) then Some base
      else
        match js.prop t "cols", js.prop t "rows" with
        | Some cols, Some rows =>
            if js.truthy cols && js.truthy rows then
              match cols, rows with
              | Some cols, Some rows =>
                  match js.toString cols, js.toString rows with
                  | Some c, Some r => Some (<["LINES" := r]> (<["COLUMNS" := c]> base))
                  | _, _ => None
                  end
              | _, _ => Some base
              end
            else Some base
        | _, _ => Some base
        end
  end.

(** [args.join(' ')]. *)
Fixpoint join_space (l : list string) : string :=
  match l with
  | [] => ""
  | [x] => x
  | x :: rest => x +:+ " " +:+ join_space rest
  end.

(** [POST /api/execute/:previewId] with body
    [{ command, args, cwd, terminal }]; [newId] is what [uuidv4()]
    returns.  With the answer comes the child that was started. *)
Definition execute (previewId command : string) (args : list string) (cwd : string)
           (terminal : option json) (newId : string) (st : State)
  : State * Response * option ChildProcess :=
  if String.eqb command "" then (st, failure 400 "Missing command parameter", None)
  else
    match get_or_create previewId st with
    | None => (st, failure 500 "", None)
    | Some (r, st) =>
        match objects st !! r with
        | None => (st, failure 500 "", None)
        | Some container =>
            let workingDir := path.join (dir container) cwd in
            match fs.mkdirSync (disk st) workingDir true with
            | None => (st, failure 500 "", None)
            | Some d =>
                let st := set_disk d st in
                let jsh := String.eqb command "/bin/jsh" in
                let commandToExecute := if jsh then "/bin/bash" else command in
                let argsToUse :=
                  if jsh then filter (fun arg => arg <> "--osc") args else args in
                match exec_env terminal st with
                | None => (st, failure 500 "", None)
                | Some e =>
                    let isInteractiveShell := String.eqb commandToExecute "/bin/bash" in
                    let childProcess :=
                      if isInteractiveShell then
                        {| launch := Spawned; command := commandToExecute;
                           args := argsToUse; cwd := workingDir; child_env := e;
                           owner := r; owner_previewId := previewId;
                           processId := newId |}
                      else
                        {| launch := Execed;
                           command := commandToExecute +:+ " " +:+ join_space argsToUse;
                           args := []; cwd := workingDir; child_env := e;
                           owner := r; owner_previewId := previewId;
                           processId := newId |} in
                    let st := set_objects
                                (alter (set_processes (insert newId childProcess)) r) st in
                    (st, started newId, Some childProcess)
                end
            end
        end
    end.

(* ===================================================================== *)
(** ** Listeners on a child process *)
(* ===================================================================== *)

(** [childProcess.on('exit', (code) => ...)] of the interactive branch;
    [code] is [null] for a child a signal ended, and the event reports
    [code || 0]. *)
Definition on_exit (p : ChildProcess) (code : option Z) (st : State) : State :=
  let st := set_objects (alter (set_processes (delete (processId p))) (owner p)) st in
  broadcastToContainer (owner_previewId p)
    (process_completed (owner_previewId p) (processId p)
       (CodeNum (match code with Some z => z | None => 0%Z end)) "" "")
    st.

(** The callback given to [exec]: [(error, stdout, stderr) => ...];
    [error] is [None] for [null] and otherwise holds [error.code]. *)
Definition exec_callback (p : ChildProcess) (error : option ExitCode) (out err : string)
           (st : State) : State :=
  let st := set_objects (alter (set_processes (delete (processId p))) (owner p)) st in
  broadcastToContainer (owner_previewId p)
    (process_completed (owner_previewId p) (processId p)
       (match error with Some code => code | None => CodeNum 0 end) out err)
    st.

(** The ['data'] listener that each branch of the route registers on
    [childProcess.stdout] and on [childProcess.stderr]. *)
Definition branch_on_data (p : ChildProcess) (stream : Stream) (data : string)
           (st : State) : State :=
  broadcastToContainer (owner_previewId p)
    (process_output (owner_previewId p) (processId p) data stream) st.

(** The ['data'] listener the route registers after the branches, under
    "Set up output streaming"; the text it also appends to a local
    variable is never read. *)
Definition tail_on_data (p : ChildProcess) (stream : Stream) (data : string)
           (st : State) : State :=
  broadcastToContainer (owner_previewId p)
    (process_output (owner_previewId p) (processId p) data stream) st.

(** What a child can emit.  [child_done] is the completion of an [exec]
    call; [child_error] is the ['error'] event of a child that could not be
    started, with the name of the system error. *)
Inductive ChildEvent : Type :=
| child_exit (code : option Z)
| child_error (name : string)
| child_data (stream : Stream) (data : string)
| child_done (error : option ExitCode) (out err : string).

(** The listeners a child has, in the order of their registration.  A
    spawned shell gets ['exit'] and ['data'] listeners and none for
    ['error']; an exec'ed child has the callback, which [exec] also calls
    from its own ['error'] listener. *)
Definition listeners (p : ChildProcess) (ev : ChildEvent) : list (State -> State) :=
  match ev, launch p with
  | child_exit code, Spawned => [on_exit p code]
  | child_exit _, Execed => []
  | child_error _, Spawned => []
  | child_error name, Execed => [exec_callback p (Some (CodeName name)) "" ""]
  | child_data stream data, _ => [branch_on_data p stream data; tail_on_data p stream data]
  | child_done _ _ _, Spawned => []
  | child_done error out err, Execed => [exec_callback p error out err]
  end.

(** [emitter.emit]: the listeners run in order.  An ['error'] event without
    a listener is thrown instead ([None]). *)
Definition emit (p : ChildProcess) (ev : ChildEvent) (st : State) : option State :=
  match ev, listeners p ev with
  | child_error _, [] => None
  | _, ls => Some (fold_left (fun st listener => listener st) ls st)
  end.

(* ===================================================================== *)
(** ** The server as a transition system *)
(* ===================================================================== *)

(** One callback of the event loop, with the workspace it is for. *)
Inductive Op : Type :=
| ws_connect (ws : nat) (previewId : string)
| ws_message (ws : nat) (previewId : string) (parsed : option json)
| ws_close (ws : nat) (previewId : string)
| ws_error (ws : nat) (previewId message : string)
| idle_timeout (previewId : string)
| http_write (previewId filePath : string) (content : option string)
| http_mkdir (previewId dirPath : string) (recursive : bool)
| http_rm (previewId filePath : string) (recursive : bool)
| http_read (previewId filePath : string)
| http_execute (previewId command : string) (args : list string) (cwd : string)
               (terminal : option json) (newId : string)
| child_emits (p : ChildProcess) (ev : ChildEvent).

Definition workspace_of (op : Op) : string :=
  match op with
  | ws_connect _ w | ws_message _ w _ | ws_close _ w | ws_error _ w _
  | idle_timeout w | http_write w _ _ | http_mkdir w _ _ | http_rm w _ _
  | http_read w _ | http_execute w _ _ _ _ _ => w
  | child_emits p _ => owner_previewId p
  end.

(** The socket a WebSocket callback belongs to. *)
Definition socket_of (op : Op) : option nat :=
  match op with
  | ws_connect ws _ | ws_message ws _ _ | ws_close ws _ | ws_error ws _ _ => Some ws
  | _ => None
  end.

(** The state after the callback; [None] when an exception escapes it. *)
Definition step (op : Op) (st : State) : option State :=
  match op with
  | ws_connect ws w =>
      match on_connection ws (Some w) st with
      | Attached st' | Refused st' => Some st'
      | Uncaught => None
      end
  | ws_message ws w parsed => Some (on_message ws w parsed st)
  | ws_close ws w => Some (on_close ws w st)
  | ws_error ws _ message => Some (on_error ws message st)
  | idle_timeout w => Some (on_idle_timeout w st)
  | http_write w filePath content => Some (files_write w filePath content st).1
  | http_mkdir w dirPath recursive => Some (files_mkdir w dirPath recursive st).1
  | http_rm w filePath recursive => Some (files_rm w filePath recursive st).1
  | http_read w filePath => Some (files_read w filePath st).1
  | http_execute w command args cwd terminal newId =>
      Some (execute w command args cwd terminal newId st).1.1
  | child_emits p ev => emit p ev st
  end.

(** Running a list of callbacks from a state. *)
Fixpoint run (ops : list Op) (st : State) : option State :=
  match ops with
  | [] => Some st
  | op :: rest =>
      match step op st with
      | Some st' => run rest st'
      | None => None
      end
  end.

(** The registry is well formed: what it holds for an identifier is a live
    object made by [createContainer] for that identifier, and references
    not handed out yet name nothing. *)
Definition registry_ok (st : State) : Prop :=
  (forall w r, containers st !! w = Some r ->
               exists c, objects st !! r = Some c /\ id c = w
                         /\ dir c = path.join data_root w)
  /\ (forall r, next_ref st <= r -> objects st !! r = None).

(** The closure of a child is well formed: the container object it holds
    was made for its [previewId]. *)
Definition closure_ok (st : State) (p : ChildProcess) : Prop :=
  exists c, objects st !! owner p = Some c /\ id c = owner_previewId p.

Definition op_ok (st : State) (op : Op) : Prop :=
  match op with
  | child_emits p _ => closure_ok st p
  | _ => True
  end.

(** [ws] is among the clients of the container registered for [w]. *)
Definition attached (st : State) (w : string) (ws : nat) : Prop :=
  exists r c, containers_get st w = Some (r, c) /\ ws ∈ clients c.

(** A directory is inside the persistent volume when it is the root of the
    volume or lies below it. *)
Definition within_root (d : string) : bool :=
  String.eqb d data_root || String.prefix (data_root +:+ "/") d.

(** No segment of the identifier is [".."]. *)
Definition no_dotdot (previewId : string) : Prop :=
  ".." ∉ path.split_slash previewId.

(** Projections of an updated state. *)
Ltac state_simpl :=
  cbn [containers objects next_ref disk env open_ws sent stdin_log timers
       set_containers set_objects set_disk set_env set_open_ws set_timers
       push_sent push_stdin].

(** An update of a container object that keeps what identifies it. *)
Definition preserves (f : Container -> Container) : Prop :=
  forall c, id (f c) = id c /\ dir (f c) = dir c.

(** [frame w st st']: going from [st] to [st'] nothing was sent, the
    registry stayed well formed and changed at most for [w], and every
    object is still there, unchanged unless it was made for [w]. *)
Definition frame (w : string) (st st' : State) : Prop :=
  registry_ok st ->
  registry_ok st'
  /\ sent st' = sent st
  /\ (forall w', w' <> w -> containers st' !! w' = containers st !! w')
  /\ (forall r c, objects st !! r = Some c ->
                  exists c', objects st' !! r = Some c' /\ id c' = id c
                             /\ dir c' = dir c /\ (id c <> w -> c' = c)).

(** [confined w sock st st']: a [frame] for [w], followed by messages that
    went to clients of [w] or to the socket [sock]. *)
Definition confined (w : string) (sock : option nat) (st st' : State) : Prop :=
  exists mid msgs,
    frame w st mid
    /\ st' = push_sent msgs mid
    /\ forall ws ev, (ws, ev) ∈ msgs -> attached mid w ws \/ sock = Some ws.

(** Two states for the examples below.  In [stale_state] a file was
    written as ["a.txt"] and removed as ["./a.txt"]: the file is gone from
    the disk and the cache still has it.  In [swept_state] a file was
    written, the idle sweep dropped the session, and a client came back. *)
Definition stale_state : State :=
  (files_rm "w" "./a.txt" false
     (files_write "w" "a.txt" (Some "x") (initial ∅)).1).1.

Definition written_state : State :=
  (files_write "w" "a/b.txt" (Some "x") (initial ∅)).1.

Definition swept_state : State :=
  match on_connection 1 (Some "w") (on_idle_timeout "w" written_state) with
  | Attached st => st
  | _ => written_state
  end.

(** Two workspaces, each with one client. *)
Definition two_sessions : State :=
  default (initial ∅) (run [ws_connect 1 "w"; ws_connect 2 "v"] (initial ∅)).

(** A session with one client attached and a shell running, and one with
    a client and a one-shot command running, together with the child
    objects the route made. *)
Definition connected_state : State :=
  match on_connection 1 (Some "w") (initial ∅) with
  | Attached st => st
  | _ => initial ∅
  end.

Definition shell_state : State :=
  (execute "w" "/bin/bash" [] "/" None "p1" connected_state).1.1.

Definition shell : ChildProcess :=
  {| launch := Spawned; command := "/bin/bash"; args := []; cwd := "/data/w/";
     child_env := {[ "TERM" := "xterm-256color"; "COLORTERM" := "truecolor";
                     "TERM_PROGRAM" := "bolt" ]};
     owner := 0; owner_previewId := "w"; processId := "p1" |}.

Definition job_state : State :=
  (execute "w" "ls" ["-l"] "/" None "p2" connected_state).1.1.

Definition job : ChildProcess :=
  {| launch := Execed; command := "ls -l"; args := []; cwd := "/data/w/";
     child_env := {[ "TERM" := "xterm-256color"; "COLORTERM" := "truecolor";
                     "TERM_PROGRAM" := "bolt" ]};
     owner := 0; owner_previewId := "w"; processId := "p2" |}.

(* ===================================================================== *)
(** ** The execute route of part_000, and what the theorems count *)
(* ===================================================================== *)

(** [POST /api/execute/:previewId] as part_000 has it: a shell is always
    [/bin/sh] ([/bin/jsh] and [/bin/bash] are replaced by it), a child is
    interactive when it runs [/bin/sh], and the [try] covers the whole
    route, [createContainer] included. *)
Definition execute_part000 (previewId command : string) (args : list string)
           (cwd : string) (terminal : option json) (newId : string) (st : State)
  : State * Response * option ChildProcess :=
  if String.eqb command "" then (st, failure 400 "Missing command parameter", None)
  else
    match get_or_create previewId st with
    | None => (st, failure 500 "", None)
    | Some (r, st) =>
        match objects st !! r with
        | None => (st, failure 500 "", None)
        | Some container =>
            let workingDir := path.join (dir container) cwd in
            match fs.mkdirSync (disk st) workingDir true with
            | None => (st, failure 500 "", None)
            | Some d =>
                let st := set_disk d st in
                let jsh := String.eqb command "/bin/jsh" in
                let bash := String.eqb command "/bin/bash" in
                let commandToExecute :=
                  if bash then "/bin/sh" else if jsh then "/bin/sh" else command in
                let argsToUse :=
                  if jsh then filter (fun arg => arg <> "--osc") args else args in
                match exec_env terminal st with
                | None => (st, failure 500 "", None)
                | Some e =>
                    let isInteractiveShell := String.eqb commandToExecute "/bin/sh" in
                    let childProcess :=
                      if isInteractiveShell then
                        {| launch := Spawned; command := commandToExecute;
                           args := argsToUse; cwd := workingDir; child_env := e;
                           owner := r; owner_previewId := previewId;
                           processId := newId |}
                      else
                        {| launch := Execed;
                           command := commandToExecute +:+ " " +:+ join_space argsToUse;
                           args := []; cwd := workingDir; child_env := e;
                           owner := r; owner_previewId := previewId;
                           processId := newId |} in
                    let st := set_objects
                                (alter (set_processes (insert newId childProcess)) r) st in
                    (st, started newId, Some childProcess)
                end
            end
        end
    end.

(** How many of the messages went to the socket [ws]. *)
Definition deliveries (ws : nat) (msgs : list (nat * Event)) : nat :=
  length (filter (fun m => m.1 = ws) msgs).

(** Every container object has [P]. *)
Definition every_container (P : Container -> Prop) (st : State) : Prop :=
  forall r c, objects st !! r = Some c -> P c.

(** The event after which the route's listener forgets the handle. *)
Definition completes (p : ChildProcess) (ev : ChildEvent) : bool :=
  match ev, launch p with
  | child_exit _, Spawned => true
  | child_done _ _ _, Execed => true
  | child_error _, Execed => true
  | _, _ => false
  end.

(** What an absolute path normalises to: non-empty segments without
    ['/']. *)
Definition clean (seg : string) : Prop :=
  path.split_slash seg = [seg] /\ seg <> "".

(* ===================================================================== *)
(** ** Listing a directory (server.js) *)
(* ===================================================================== *)

(** The name of [k] when it is an entry of the directory [segs]. *)
Definition child_of (segs k : list string) : option string :=
  if decide (take (length segs) k = segs) then
    match drop (length segs) k with
    | [name] => Some name
    | _ => None
    end
  else None.

(** [fs.readdirSync(p, { withFileTypes: true })]: the entries of a
    directory with what they are; [None] when the call throws (no such
    directory, or not a directory).  The order of the entries is that of
    the host's directory and nothing below depends on it. *)
Definition readdirSync (d : gmap (list string) fs.node) (p : string)
  : option (list (string * fs.node)) :=
  match fs.resolve d p with
  | Some fs.Dir =>
      Some (omap (fun entry : list string * fs.node =>
                    match child_of (path.segments p) entry.1 with
                    | Some name => Some (name, entry.2)
                    | None => None
                    end)
                 (map_to_list d))
  | _ => None
  end.

(** A serialized [Dirent]. *)
Record Dirent : Type := {
  name : string;
  isDirectory : bool;
  isFile : bool;
  isSymbolicLink : bool
}.

Definition dirent (entry : string * fs.node) : Dirent :=
  match entry.2 with
  | fs.File _ => {| name := entry.1; isDirectory := false; isFile := true;
                    isSymbolicLink := false |}
  | fs.Dir => {| name := entry.1; isDirectory := true; isFile := false;
                 isSymbolicLink := false |}
  end.

(** What the route answers. *)
Inductive Listing : Type :=
| entries (names : list string)
| entries_with_types (serializedEntries : list Dirent)
| listing_failure (status : nat) (error : string).

(** [GET /api/files/readdir/:previewId?path=...&withFileTypes=...];
    [withFileTypes] is [req.query.withFileTypes === 'true']. *)
Definition files_readdir (previewId dirPath : string) (withFileTypes : bool)
           (st : State) : Listing :=
  if String.eqb dirPath "" then listing_failure 400 "Missing path parameter"
  else
    match containers_get st previewId with
    | None => listing_failure 404 "Container not found"
    | Some (_, container) =>
        let fullPath := path.join (dir container) dirPath in
        if negb (fs.existsSync (disk st) fullPath)
        then listing_failure 404 "Directory not found"
        else
          match readdirSync (disk st) fullPath with
          | None => listing_failure 500 ""
          | Some found =>
              if withFileTypes then entries_with_types (map dirent found)
              else entries (map fst found)
          end
    end.

(* ===================================================================== *)
(** ** Serving the preview (server.js) *)
(* ===================================================================== *)



(** [s.replace(pattern, replacement)] for a string pattern and a
    replacement without [$]: the first occurrence is replaced. *)
Fixpoint strip_prefix (pattern s : string) : option string :=
  match pattern, s with
  | EmptyString, _ => Some s
  | String a pattern', String b s' =>
      if Ascii.eqb a b then strip_prefix pattern' s' else None
  | String _ _, EmptyString => None
  end.

Fixpoint replace (pattern replacement s : string) : string :=
  match strip_prefix pattern s with
  | Some rest => replacement +:+ rest
  | None =>
      match s with
      | EmptyString => EmptyString
      | String c s' => String c (replace pattern replacement s')
      end
  end.



(* ===================================================================== *)
(** ** More example states *)
(* ===================================================================== *)

(** More states for the examples. *)
Definition orphan_state : State :=
  on_idle_timeout "w" (on_close 1 "w" shell_state).


(** A workspace with the files [a/b.txt], [a/c.txt] and [d.txt]. *)
Definition tree_state : State :=
  (files_write "w" "d.txt" (Some "z")
     (files_write "w" "a/c.txt" (Some "y") written_state).1).1.

(** Messages for the shell of [shell_state]. *)
Definition input_message : json :=
  JObj [("type", JStr "terminal-input"); ("processId", JStr "p1"); ("input", JStr "ls")].


(** The shell's session was swept and a new client came. *)
Definition reattached_state : State :=
  match on_connection 2 (Some "w") orphan_state with
  | Attached st => st
  | _ => orphan_state
  end.

(* ===================================================================== *)
(** * Properties *)
(* ===================================================================== *)

Example join_plain : path.join "/data" "abc" = "/data/abc".
Proof. reflexivity. Qed.

Example join_nested : path.join "/data/w" "a/./b//c.txt" = "/data/w/a/b/c.txt".
Proof. reflexivity. Qed.

Example join_dotdot : path.join "/data" "../etc" = "/etc".
Proof. reflexivity. Qed.

Example join_trailing : path.join "/data" "w/" = "/data/w/".
Proof. reflexivity. Qed.

Example join_above_root : path.join "/data" "../../../x" = "/x".
Proof. reflexivity. Qed.

Example join_back_inside : path.join "/data" "a/../b" = "/data/b".
Proof. reflexivity. Qed.

Example dirname_file : path.dirname "/data/w/a/b.txt" = "/data/w/a".
Proof. reflexivity. Qed.

Example toString_array : js.toString (JArr [JNum 80; JNull; JStr "x"]) = Some "80,,x".
Proof. reflexivity. Qed.

Example toString_negative : js.toString (JNum (-5)) = Some "-5".
Proof. reflexivity. Qed.

(** ** Workspace directories *)

Section Paths.

(** Without [".."] the stack of [normalizeString] only grows. *)
Lemma normalize_segs_no_dotdot (b : bool) (segs acc : list string) :
  ".." ∉ segs ->
  path.normalize_segs b acc segs
  = rev acc ++ filter (fun seg => seg <> "" /\ seg <> ".") segs.
Proof.
  revert acc. induction segs as [|seg rest IH]; intros acc Hno.
  - simpl. by rewrite app_nil_r.
  - apply not_elem_of_cons in Hno as [Hseg Hrest].
    cbn [path.normalize_segs].
    destruct (String.eqb_spec seg "") as [->|Hne].
    { rewrite IH by done. rewrite filter_cons_False by (intros [? ?]; done). reflexivity. }
    destruct (String.eqb_spec seg ".") as [->|Hnd].
    { rewrite IH by done. rewrite filter_cons_False by (intros [? ?]; done). reflexivity. }
    destruct (String.eqb_spec seg "..") as [->|_]; [done|].
    rewrite IH by done. rewrite filter_cons_True by done.
    simpl. by rewrite <- app_assoc.
Qed.

Lemma split_slash_data (s : string) :
  path.split_slash ("/data/" +:+ s) = "" :: "data" :: path.split_slash s.
Proof.
  change ("/data/" +:+ s)
    with (String "/" (String "d" (String "a" (String "t" (String "a" (String "/" s)))))).
  reflexivity.
Qed.

Lemma within_root_below (s : string) : within_root ("/data/" +:+ s) = true.
Proof.
  change ("/data/" +:+ s)
    with (String "/" (String "d" (String "a" (String "t" (String "a" (String "/" s)))))).
  unfold within_root. apply orb_true_iff. right. cbn. by destruct s.
Qed.

Lemma within_root_data_segs (rest : list string) (trailing : bool) :
  within_root
    ("/" +:+ (if trailing then path.join_slash ("data" :: rest) +:+ "/"
              else path.join_slash ("data" :: rest))) = true.
Proof.
  destruct rest as [|seg rest], trailing.
  - reflexivity.
  - reflexivity.
  - exact (within_root_below (path.join_slash (seg :: rest) +:+ "/")).
  - exact (within_root_below (path.join_slash (seg :: rest))).
Qed.

Lemma join_slash_data_nonempty (rest : list string) :
  String.eqb (path.join_slash ("data" :: rest)) "" = false.
Proof. by destruct rest. Qed.

Lemma join_data_within_root (previewId : string) :
  no_dotdot previewId -> within_root (path.join data_root previewId) = true.
Proof.
  intros Hno. unfold path.join, data_root.
  destruct (String.eqb_spec previewId "") as [->|Hne]; [reflexivity|].
  change (String.eqb "/data" "") with false. cbv iota.
  change ("/data" +:+ "/" +:+ previewId) with ("/data/" +:+ previewId).
  unfold path.normalize.
  change (String.eqb ("/data/" +:+ previewId) "") with false. cbv iota.
  change (path.is_absolute ("/data/" +:+ previewId)) with true. cbv zeta.
  rewrite split_slash_data.
  change (negb true) with false.
  change (path.normalize_segs false [] ("" :: "data" :: path.split_slash previewId))
    with (path.normalize_segs false ["data"] (path.split_slash previewId)).
  rewrite normalize_segs_no_dotdot by exact Hno.
  change (rev ["data"] ++ ?l) with ("data" :: l).
  rewrite join_slash_data_nonempty.
  apply within_root_data_segs.
Qed.

End Paths.

(** C1, as the code has it.  [createContainer] does not validate the
    identifier: the directory is [path.join('/data', previewId)] whatever
    the identifier is.  For an identifier none of whose segments is [".."]
    that directory is the volume root or lies below it. *)
Theorem C1_directory_within_volume (previewId : string) (st st' : State) (r : nat) :
  no_dotdot previewId ->
  createContainer previewId st = Some (r, st') ->
  exists c,
    objects st' !! r = Some c
    /\ id c = previewId
    /\ dir c = path.join data_root previewId
    /\ within_root (dir c) = true.
Proof.
  intros Hno Hcreate. unfold createContainer in Hcreate.
  destruct (fs.mkdirSync _ _ _) as [d|]; [|discriminate].
  injection Hcreate as <- <-. eexists. split; [apply lookup_insert_eq|].
  cbn. repeat split. by apply join_data_within_root.
Qed.

Lemma C1_directory_within_volume_witness :
  exists st',
    createContainer "abc" (initial ∅) = Some (0, st')
    /\ exists c,
        objects st' !! 0 = Some c
        /\ id c = "abc"
        /\ dir c = path.join data_root "abc"
        /\ within_root (dir c) = true.
Proof.
  eexists. split; [reflexivity|].
  apply (C1_directory_within_volume "abc" (initial ∅)).
  - unfold no_dotdot. refine (bool_decide_unpack _ _). vm_compute. exact I.
  - reflexivity.
Defined.

(** C1 as stated fails: nothing rejects ["../etc"], and the container made
    for it has its directory outside the volume. *)
Lemma C1_traversal_leaves_volume :
  exists st c,
    createContainer "../etc" (initial ∅) = Some (0, st)
    /\ objects st !! 0 = Some c
    /\ dir c = "/etc"
    /\ within_root (dir c) = false.
Proof.
  eexists. eexists. split; [reflexivity|]. split; [apply lookup_insert_eq|].
  split; reflexivity.
Qed.

(** ** The idle sweep *)

(** A session in use for the examples: one client connects to ["w"],
    starts a shell, and leaves. *)
Example shell_left_behind :
  run [ws_connect 1 "w";
       http_execute "w" "/bin/bash" [] "/" None "p1";
       ws_close 1 "w"] (initial ∅)
  = Some {| containers := {[ "w" := 0 ]};
            objects := {[ 0 := {| id := "w"; dir := "/data/w"; clients := [];
                                  files := ∅;
                                  processes :=
                                    {[ "p1" := {| launch := Spawned;
                                                  command := "/bin/bash"; args := [];
                                                  cwd := "/data/w/";
                                                  child_env :=
                                                    {[ "TERM" := "xterm-256color";
                                                       "COLORTERM" := "truecolor";
                                                       "TERM_PROGRAM" := "bolt" ]};
                                                  owner := 0; owner_previewId := "w";
                                                  processId := "p1" |} ]} |} ]};
            next_ref := 1;
            disk := {[ ["data"] := fs.Dir; ["data"; "w"] := fs.Dir ]};
            env := ∅;
            open_ws := ∅;
            sent := [(1, connection_established "w" None)];
            stdin_log := [];
            timers := ["w"] |}.
Proof. vm_compute. reflexivity. Qed.

(** C7.  When the idle timer fires for a session without clients, the
    entry leaves the registry: a lookup that does not create finds nothing
    and a read answers 404, while the disk (and every object) is as it
    was. *)
Theorem C7_idle_sweep_removes_entry (previewId : string) (st : State) (r : nat)
        (c : Container) :
  containers_get st previewId = Some (r, c) ->
  clients c = [] ->
  containers (on_idle_timeout previewId st) !! previewId = None
  /\ containers_get (on_idle_timeout previewId st) previewId = None
  /\ (forall filePath, filePath <> "" ->
        files_read previewId filePath (on_idle_timeout previewId st)
        = (on_idle_timeout previewId st, failure 404 "Container not found"))
  /\ disk (on_idle_timeout previewId st) = disk st
  /\ objects (on_idle_timeout previewId st) = objects st.
Proof.
  intros Hget Hnone. unfold on_idle_timeout. rewrite Hget, Hnone.
  assert (Hgone : containers_get (set_containers (delete previewId) st) previewId = None).
  { unfold containers_get. cbn. by rewrite lookup_delete_eq. }
  split; [cbn; apply lookup_delete_eq|]. split; [exact Hgone|].
  split; [|done].
  intros filePath Hpath. unfold files_read.
  destruct (String.eqb_spec filePath ""); [done|]. by rewrite Hgone.
Qed.

Lemma C7_idle_sweep_removes_entry_witness :
  containers (on_idle_timeout "w" stale_state) !! "w" = None
  /\ containers_get (on_idle_timeout "w" stale_state) "w" = None
  /\ (forall filePath, filePath <> "" ->
        files_read "w" filePath (on_idle_timeout "w" stale_state)
        = (on_idle_timeout "w" stale_state, failure 404 "Container not found"))
  /\ disk (on_idle_timeout "w" stale_state) = disk stale_state
  /\ objects (on_idle_timeout "w" stale_state) = objects stale_state.
Proof.
  eapply (C7_idle_sweep_removes_entry "w" stale_state); reflexivity.
Defined.

(** C6, as the code has it.  The idle sweep looks at the clients only: a
    session with a client attached when the timer fires stays as it is,
    and a session without clients is dropped whatever [processes]
    holds. *)
Theorem C6_idle_sweep_checks_clients_only (previewId : string) (st : State) (r : nat)
        (c : Container) :
  containers_get st previewId = Some (r, c) ->
  (clients c <> [] -> on_idle_timeout previewId st = st)
  /\ (clients c = [] ->
      on_idle_timeout previewId st = set_containers (delete previewId) st).
Proof.
  intros Hget. unfold on_idle_timeout. rewrite Hget.
  destruct (clients c); split; intros; done.
Qed.

Lemma C6_idle_sweep_checks_clients_only_witness :
  (clients {| id := "w"; dir := "/data/w"; clients := []; files := {[ "a.txt" := "x" ]};
              processes := ∅ |} <> [] ->
   on_idle_timeout "w" stale_state = stale_state)
  /\ (clients {| id := "w"; dir := "/data/w"; clients := []; files := {[ "a.txt" := "x" ]};
                 processes := ∅ |} = [] ->
      on_idle_timeout "w" stale_state = set_containers (delete "w") stale_state).
Proof.
  apply (C6_idle_sweep_checks_clients_only "w" stale_state 0). vm_compute. reflexivity.
Defined.

(** C6 as stated fails: the shell ["p1"] of ["w"] is still in [processes]
    when the timer fires, and the session is dropped all the same. *)
Lemma C6_running_process_swept :
  exists st r c p,
    run [ws_connect 1 "w";
         http_execute "w" "/bin/bash" [] "/" None "p1";
         ws_close 1 "w"] (initial ∅) = Some st
    /\ containers_get st "w" = Some (r, c)
    /\ clients c = []
    /\ processes c !! "p1" = Some p
    /\ containers_get (on_idle_timeout "w" st) "w" = None.
Proof.
  eexists. eexists. eexists. eexists.
  split; [vm_compute; reflexivity|].
  split; [vm_compute; reflexivity|].
  split; [reflexivity|].
  split; [vm_compute; reflexivity|].
  vm_compute. reflexivity.
Qed.

(** ** The file store *)

Section FileStore.

Lemma broadcast_frame (previewId : string) (data : Event) (st : State) :
  containers (broadcastToContainer previewId data st) = containers st
  /\ objects (broadcastToContainer previewId data st) = objects st
  /\ next_ref (broadcastToContainer previewId data st) = next_ref st
  /\ disk (broadcastToContainer previewId data st) = disk st
  /\ env (broadcastToContainer previewId data st) = env st
  /\ open_ws (broadcastToContainer previewId data st) = open_ws st.
Proof.
  unfold broadcastToContainer.
  destruct (containers_get st previewId) as [[r c]|]; done.
Qed.

Lemma broadcast_frame_timers (previewId : string) (data : Event) (st : State) :
  containers (broadcastToContainer previewId data st) = containers st
  /\ objects (broadcastToContainer previewId data st) = objects st
  /\ next_ref (broadcastToContainer previewId data st) = next_ref st
  /\ disk (broadcastToContainer previewId data st) = disk st
  /\ open_ws (broadcastToContainer previewId data st) = open_ws st
  /\ timers (broadcastToContainer previewId data st) = timers st.
Proof.
  unfold broadcastToContainer.
  destruct (containers_get st previewId) as [[r c]|]; done.
Qed.

Lemma broadcast_containers_get (previewId w : string) (data : Event) (st : State) :
  containers_get (broadcastToContainer previewId data st) w = containers_get st w.
Proof.
  unfold containers_get.
  destruct (broadcast_frame previewId data st) as (-> & -> & _). done.
Qed.

(** What [get_or_create] returns is registered under the identifier and
    names a live object; with a well-formed registry its directory is
    the one [createContainer] computes. *)
Lemma get_or_create_registered (previewId : string) (st st1 : State) (r : nat) :
  get_or_create previewId st = Some (r, st1) ->
  containers st1 !! previewId = Some r
  /\ exists c, objects st1 !! r = Some c
               /\ (registry_ok st -> dir c = path.join data_root previewId).
Proof.
  unfold get_or_create, containers_get, createContainer. intros H.
  destruct (containers st !! previewId) as [r0|] eqn:Hreg.
  - destruct (objects st !! r0) as [c0|] eqn:Hobj.
    + injection H as <- <-. split; [done|]. exists c0. split; [done|].
      intros [Hok _]. destruct (Hok _ _ Hreg) as (c' & Hc' & _ & Hdir). congruence.
    + destruct (fs.mkdirSync _ _ _); [|done]. injection H as <- <-. cbn.
      split; [apply lookup_insert_eq|]. eexists. split; [apply lookup_insert_eq|done].
  - destruct (fs.mkdirSync _ _ _); [|done]. injection H as <- <-. cbn.
    split; [apply lookup_insert_eq|]. eexists. split; [apply lookup_insert_eq|done].
Qed.


(** A read of a cached path answers from the cache and changes nothing. *)
Lemma cache_hit (w filePath cached : string) (st : State) :
  filePath <> "" ->
  (exists r c, containers_get st w = Some (r, c) /\ files c !! filePath = Some cached) ->
  files_read w filePath st = (st, content_of cached).
Proof.
  intros Hpath (r & c & Hget & Hcached). unfold files_read.
  destruct (String.eqb_spec filePath ""); [done|]. by rewrite Hget, Hcached.
Qed.


End FileStore.

(** C10.  When the cache has an entry for a path that is not on the disk,
    a remove of the path answers 404 and returns before the entry is
    evicted, and a read of the path still answers with the cached
    content.  Neither changes the state. *)
Theorem C10_rm_keeps_stale_cache (previewId filePath : string) (st : State) (r : nat)
        (c : Container) (cached : string) (recursive : bool) :
  filePath <> "" ->
  containers_get st previewId = Some (r, c) ->
  files c !! filePath = Some cached ->
  fs.existsSync (disk st) (path.join (dir c) filePath) = false ->
  files_rm previewId filePath recursive st
  = (st, failure 404 "File or directory not found")
  /\ files_read previewId filePath st = (st, content_of cached).
Proof.
  intros Hpath Hget Hcached Hdisk. unfold files_rm, files_read.
  destruct (String.eqb_spec filePath ""); [done|].
  rewrite Hget. cbv zeta. rewrite Hdisk, Hcached. done.
Qed.

Lemma C10_rm_keeps_stale_cache_witness :
  files_rm "w" "a.txt" false stale_state
  = (stale_state, failure 404 "File or directory not found")
  /\ files_read "w" "a.txt" stale_state = (stale_state, content_of "x").
Proof.
  eapply (C10_rm_keeps_stale_cache "w" "a.txt" stale_state).
  - discriminate.
  - vm_compute. reflexivity.
  - vm_compute. reflexivity.
  - vm_compute. reflexivity.
Defined.


Lemma registry_ok_initial (e : gmap string string) : registry_ok (initial e).
Proof.
  split; [intros w r H; cbn in H; by rewrite lookup_empty in H|].
  intros; apply lookup_empty.
Qed.


(** The second half of C8 on a run: the file is written, the idle sweep
    drops the session and its cache, a client comes back, and the read is
    served from the disk. *)
Example read_after_sweep :
  containers_get written_state "w"
  = Some (0, {| id := "w"; dir := "/data/w"; clients := [];
                files := {[ "a/b.txt" := "x" ]}; processes := ∅ |})
  /\ containers_get swept_state "w"
     = Some (1, {| id := "w"; dir := "/data/w"; clients := [1];
                   files := ∅; processes := ∅ |})
  /\ disk swept_state = disk written_state
  /\ (files_read "w" "a/b.txt" swept_state).2 = content_of "x".
Proof. repeat split; vm_compute; reflexivity. Qed.

(** ** Connections *)

Section Connections.

(** The two ways [get_or_create] succeeds. *)
Lemma get_or_create_cases (previewId : string) (st st1 : State) (r : nat) :
  get_or_create previewId st = Some (r, st1) ->
  (st1 = st /\ exists c, containers_get st previewId = Some (r, c))
  \/ (containers_get st previewId = None
      /\ r = next_ref st
      /\ exists d,
          st1 = {| containers := <[previewId := r]> (containers st);
                   objects := <[r := {| id := previewId;
                                        dir := path.join data_root previewId;
                                        clients := []; files := ∅;
                                        processes := ∅ |}]> (objects st);
                   next_ref := S r; disk := d; env := env st;
                   open_ws := open_ws st; sent := sent st;
                   stdin_log := stdin_log st; timers := timers st |}).
Proof.
  unfold get_or_create. intros H.
  destruct (containers_get st previewId) as [[r0 c0]|] eqn:Hget.
  - injection H as <- <-. left. eauto.
  - right. unfold createContainer in H.
    destruct (fs.mkdirSync _ _ _) as [d|]; [|done]. injection H as <- <-.
    split; [done|]. split; [done|]. by exists d.
Qed.

Lemma get_or_create_sent (previewId : string) (st st1 : State) (r : nat) :
  get_or_create previewId st = Some (r, st1) ->
  sent st1 = sent st /\ open_ws st1 = open_ws st /\ env st1 = env st.
Proof.
  intros [[-> _]|(_ & _ & d & ->)]%get_or_create_cases; done.
Qed.

(** The acknowledgement of part_000 counts the clients after the new
    socket was added. *)
Lemma part000_ack_counts_clients (ws : nat) (previewId : string)
      (processId : option string) (st st' : State) :
  on_connection_part000 ws (Some previewId) processId st = Attached st' ->
  exists r c,
    containers_get st' previewId = Some (r, c)
    /\ ws ∈ clients c
    /\ sent st' = sent st ++ [(ws, connection_established previewId
                                      (Some (processId, length (clients c))))].
Proof.
  unfold on_connection_part000. intros H.
  destruct (String.eqb previewId ""); [done|].
  destruct (get_or_create previewId _) as [[r st1]|] eqn:Hgoc; [|done].
  destruct (get_or_create_registered _ _ _ _ Hgoc) as (Hreg & c1 & Hobj & _).
  destruct (get_or_create_sent _ _ _ _ Hgoc) as (Hsent & _ & _).
  unfold ws_send in H. destruct (decide _); [|done]. injection H as <-.
  exists r, (set_clients (set_add ws) c1).
  unfold containers_get. cbn. rewrite Hreg, lookup_alter_eq, Hobj. cbn.
  split; [done|]. split.
  - unfold set_add. destruct (decide (ws ∈ clients c1)); [done|].
    apply elem_of_app. right. by apply list_elem_of_singleton.
  - by rewrite Hsent.
Qed.

End Connections.

(** C9 on server.js.  The acknowledgement sent to a socket that was
    attached is [connection-established] with the [previewId] and nothing
    else: no client count. *)
Theorem C9_ack_has_no_count (ws : nat) (previewId : string) (st st' : State) :
  on_connection ws (Some previewId) st = Attached st' ->
  sent st' = sent st ++ [(ws, connection_established previewId None)].
Proof.
  unfold on_connection. intros H.
  destruct (String.eqb previewId ""); [done|].
  destruct (get_or_create previewId _) as [[r st1]|] eqn:Hgoc; [|done].
  destruct (get_or_create_sent _ _ _ _ Hgoc) as (Hsent & _ & _).
  unfold ws_send in H. destruct (decide _); [|done]. injection H as <-.
  cbn. by rewrite Hsent.
Qed.

Lemma C9_ack_has_no_count_witness :
  exists st',
    on_connection 1 (Some "w") (initial ∅) = Attached st'
    /\ sent st' = sent (initial ∅) ++ [(1, connection_established "w" None)].
Proof.
  eexists. split; [vm_compute; reflexivity|].
  apply (C9_ack_has_no_count 1 "w" (initial ∅)). vm_compute. reflexivity.
Defined.

(** The same connection handled by the copy of part_000: the count is
    there. *)
Example part000_ack :
  exists st',
    on_connection_part000 1 (Some "w") None (initial ∅) = Attached st'
    /\ sent st' = [(1, connection_established "w" (Some (None, 1)))].
Proof. eexists. split; vm_compute; reflexivity. Qed.

(** ** Child processes *)

Example shell_is_started :
  execute "w" "/bin/bash" [] "/" None "p1" connected_state
  = (shell_state, started "p1", Some shell).
Proof. vm_compute. reflexivity. Qed.

Example jsh_becomes_bash :
  (execute "w" "/bin/jsh" ["--osc"; "-i"] "/" None "p1" connected_state).2
  = Some {| launch := Spawned; command := "/bin/bash"; args := ["-i"];
            cwd := "/data/w/"; child_env := child_env shell;
            owner := 0; owner_previewId := "w"; processId := "p1" |}.
Proof. vm_compute. reflexivity. Qed.

Example job_is_started :
  execute "w" "ls" ["-l"] "/" None "p2" connected_state
  = (job_state, started "p2", Some job).
Proof. vm_compute. reflexivity. Qed.

Section Children.

Lemma push_sent_containers_get (msgs : list (nat * Event)) (st : State) (w : string) :
  containers_get (push_sent msgs st) w = containers_get st w.
Proof. reflexivity. Qed.

Lemma push_sent_twice (m1 m2 : list (nat * Event)) (st : State) :
  push_sent m2 (push_sent m1 st) = push_sent (m1 ++ m2) st.
Proof. unfold push_sent. cbn. by rewrite app_assoc. Qed.

(** ['exit'] on a shell: the handle leaves the [processes] of the
    container object the listener holds, and [code || 0] is
    broadcast. *)
Lemma on_exit_removes_handle (p : ChildProcess) (code : option Z) (st : State)
      (c : Container) :
  objects st !! owner p = Some c ->
  objects (on_exit p code st) !! owner p
  = Some (set_processes (delete (processId p)) c)
  /\ on_exit p code st
     = broadcastToContainer (owner_previewId p)
         (process_completed (owner_previewId p) (processId p)
            (CodeNum (default 0%Z code)) "" "")
         (set_objects (alter (set_processes (delete (processId p))) (owner p)) st).
Proof.
  intros Hobj. unfold on_exit. split; [|by destruct code].
  destruct (broadcast_frame (owner_previewId p)
    (process_completed (owner_previewId p) (processId p)
       (CodeNum (match code with Some z => z | None => 0%Z end)) "" "")
    (set_objects (alter (set_processes (delete (processId p))) (owner p)) st))
    as (_ & -> & _).
  cbn. by rewrite lookup_alter_eq, Hobj.
Qed.

(** The callback of [exec]: the handle leaves [processes], and the event
    carries [error.code] when there is an error and [0] otherwise. *)
Lemma exec_callback_reports (p : ChildProcess) (error : option ExitCode)
      (out err : string) (st : State) (c : Container) :
  objects st !! owner p = Some c ->
  objects (exec_callback p error out err st) !! owner p
  = Some (set_processes (delete (processId p)) c)
  /\ exec_callback p error out err st
     = broadcastToContainer (owner_previewId p)
         (process_completed (owner_previewId p) (processId p)
            (default (CodeNum 0) error) out err)
         (set_objects (alter (set_processes (delete (processId p))) (owner p)) st).
Proof.
  intros Hobj. unfold exec_callback. split; [|by destruct error].
  destruct (broadcast_frame (owner_previewId p)
    (process_completed (owner_previewId p) (processId p)
       (match error with Some code => code | None => CodeNum 0 end) out err)
    (set_objects (alter (set_processes (delete (processId p))) (owner p)) st))
    as (_ & -> & _).
  cbn. by rewrite lookup_alter_eq, Hobj.
Qed.

End Children.

(** C3 on the code.  A chunk of output runs two listeners, the one of the
    branch and the one registered after it, and each broadcasts the chunk:
    every open client of the session gets the [process-output] event
    twice. *)
Theorem C3_chunk_broadcast_twice (p : ChildProcess) (stream : Stream) (data : string)
        (st : State) (r : nat) (c : Container) :
  containers_get st (owner_previewId p) = Some (r, c) ->
  emit p (child_data stream data) st
  = Some (push_sent
            (map (fun client =>
                    (client, process_output (owner_previewId p) (processId p) data stream))
                 (filter (fun client => client ∈ open_ws st) (clients c))
             ++
             map (fun client =>
                    (client, process_output (owner_previewId p) (processId p) data stream))
                 (filter (fun client => client ∈ open_ws st) (clients c)))
            st).
Proof.
  intros Hget. unfold emit, listeners.
  assert (Hrun : forall ls, ls = [branch_on_data p stream data; tail_on_data p stream data] ->
            Some (fold_left (fun st listener => listener st) ls st)
            = Some (push_sent
                (map (fun client =>
                        (client, process_output (owner_previewId p) (processId p) data stream))
                     (filter (fun client => client ∈ open_ws st) (clients c))
                 ++
                 map (fun client =>
                        (client, process_output (owner_previewId p) (processId p) data stream))
                     (filter (fun client => client ∈ open_ws st) (clients c)))
                st)).
  { intros ls ->. cbn [fold_left].
    unfold tail_on_data, branch_on_data, broadcastToContainer.
    rewrite Hget, push_sent_containers_get, Hget.
    by rewrite push_sent_twice. }
  destruct (launch p); by apply Hrun.
Qed.

Lemma C3_chunk_broadcast_twice_witness :
  emit shell (child_data stdout "hello") shell_state
  = Some (push_sent [(1, process_output "w" "p1" "hello" stdout);
                     (1, process_output "w" "p1" "hello" stdout)] shell_state).
Proof.
  rewrite (C3_chunk_broadcast_twice shell stdout "hello" shell_state 0
             {| id := "w"; dir := "/data/w"; clients := [1]; files := ∅;
                processes := {[ "p1" := shell ]} |}).
  - vm_compute. reflexivity.
  - vm_compute. reflexivity.
Defined.

(** C4 on the code.  The shell of [shell_state] cannot be started: no
    listener is registered for its ['error'] event, the event is thrown,
    nothing is sent and the handle stays in [processes].  A shell ended by
    a signal is reported with exit code 0.  The sibling path reports: a
    one-shot command that cannot be started completes through the callback
    with the name of the error. *)
Theorem C4_failed_shell_unreported :
  listeners shell (child_error "ENOENT") = []
  /\ emit shell (child_error "ENOENT") shell_state = None
  /\ emit shell (child_exit None) shell_state
     = Some (push_sent [(1, process_completed "w" "p1" (CodeNum 0) "" "")]
               (set_objects (alter (set_processes (delete "p1")) 0) shell_state))
  /\ emit job (child_error "ENOENT") job_state
     = Some (push_sent [(1, process_completed "w" "p2" (CodeName "ENOENT") "" "")]
               (set_objects (alter (set_processes (delete "p2")) 0) job_state)).
Proof. repeat split; vm_compute; reflexivity. Qed.

(** ** Inbound messages *)

Section Messages.

Lemma ws_send_Some (ws : nat) (data : Event) (st st' : State) :
  ws_send ws data st = Some st' ->
  st' = push_sent [(ws, data)] st /\ ws ∈ open_ws st.
Proof. unfold ws_send. destruct (decide _); [|done]. by intros [= <-]. Qed.

(** Whatever the message, [on_message] leaves the registry, the objects,
    the disk, the open sockets and the timers alone: it cannot close or
    detach a connection. *)
Lemma on_message_frame (ws : nat) (previewId : string) (parsed : option json)
      (st : State) :
  containers (on_message ws previewId parsed st) = containers st
  /\ objects (on_message ws previewId parsed st) = objects st
  /\ next_ref (on_message ws previewId parsed st) = next_ref st
  /\ disk (on_message ws previewId parsed st) = disk st
  /\ open_ws (on_message ws previewId parsed st) = open_ws st
  /\ timers (on_message ws previewId parsed st) = timers st.
Proof.
  unfold on_message, terminal_input, terminal_resize, resize.
  repeat first
    [ done
    | apply broadcast_frame_timers
    | match goal with
      | H : ws_send _ _ _ = Some _ |- _ => apply ws_send_Some in H as [-> _]
      | |- context [match ?x with _ => _ end] => destruct x eqn:?
      end ].
Qed.

End Messages.

(** C5, as the code has it.  On an open socket: a message that does not
    parse, and one that parses to [null], change nothing, so no event is
    sent; a message that parses to another value without a truthy [type]
    is answered with one [error] event on the socket it came from and
    nothing else changes; and no message closes or detaches a
    connection. *)
Theorem C5_malformed_message (ws : nat) (previewId : string) (st : State) :
  ws ∈ open_ws st ->
  on_message ws previewId None st = st
  /\ on_message ws previewId (Some JNull) st = st
  /\ (forall data type,
        js.prop data "type" = Some type ->
        js.truthy type = false ->
        on_message ws previewId (Some data) st
        = push_sent [(ws, error_event "Missing type field in message" None None)] st)
  /\ (forall parsed,
        open_ws (on_message ws previewId parsed st) = open_ws st
        /\ containers (on_message ws previewId parsed st) = containers st
        /\ objects (on_message ws previewId parsed st) = objects st).
Proof.
  intros Hopen. split; [done|]. split; [done|]. split.
  - intros data type Hprop Hfalsy. unfold on_message, ws_send.
    rewrite Hprop, Hfalsy. cbn. by destruct (decide (ws ∈ open_ws st)).
  - intros parsed.
    destruct (on_message_frame ws previewId parsed st) as (-> & -> & _ & _ & -> & _).
    done.
Qed.

Lemma C5_malformed_message_witness :
  on_message 1 "w" None connected_state = connected_state
  /\ on_message 1 "w" (Some JNull) connected_state = connected_state
  /\ (forall data type,
        js.prop data "type" = Some type ->
        js.truthy type = false ->
        on_message 1 "w" (Some data) connected_state
        = push_sent [(1, error_event "Missing type field in message" None None)]
            connected_state)
  /\ (forall parsed,
        open_ws (on_message 1 "w" parsed connected_state) = open_ws connected_state
        /\ containers (on_message 1 "w" parsed connected_state) = containers connected_state
        /\ objects (on_message 1 "w" parsed connected_state) = objects connected_state).
Proof.
  apply (C5_malformed_message 1 "w" connected_state). vm_compute. reflexivity.
Defined.

(** C5 as stated fails: after a message that does not parse the client has
    been sent the acknowledgement of its connection and nothing more. *)
Lemma C5_parse_failure_unanswered :
  1 ∈ open_ws connected_state
  /\ sent connected_state = [(1, connection_established "w" None)]
  /\ sent (on_message 1 "w" None connected_state)
     = [(1, connection_established "w" None)].
Proof. split; [vm_compute; reflexivity|]. split; vm_compute; reflexivity. Qed.

Example missing_type_answered :
  sent (on_message 1 "w" (Some (JObj [("path", JStr "a.txt")])) connected_state)
  = [(1, connection_established "w" None);
     (1, error_event "Missing type field in message" None None)].
Proof. vm_compute. reflexivity. Qed.

Example file_change_broadcast :
  sent (on_message 1 "w" (Some (JObj [("type", JStr "file-change")])) connected_state)
  = [(1, connection_established "w" None); (1, refresh_preview "w")].
Proof. vm_compute. reflexivity. Qed.

(** ** Isolation of sessions *)

Section Isolation.

Lemma preserves_set_clients (f : list nat -> list nat) : preserves (set_clients f).
Proof. done. Qed.

Lemma preserves_set_files (f : gmap string string -> gmap string string) :
  preserves (set_files f).
Proof. done. Qed.

Lemma preserves_set_processes
      (f : gmap string ChildProcess -> gmap string ChildProcess) :
  preserves (set_processes f).
Proof. done. Qed.

Lemma frame_refl (w : string) (st : State) : frame w st st.
Proof.
  intros Hok. split; [done|]. split; [done|]. split; [done|].
  intros r c Hc. by exists c.
Qed.

Lemma frame_trans (w : string) (st1 st2 st3 : State) :
  frame w st1 st2 -> frame w st2 st3 -> frame w st1 st3.
Proof.
  intros H12 H23 Hok1.
  destruct (H12 Hok1) as (Hok2 & Hs12 & Hc12 & Ho12).
  destruct (H23 Hok2) as (Hok3 & Hs23 & Hc23 & Ho23).
  split; [done|]. split; [congruence|]. split.
  - intros w' Hw'. rewrite Hc23, Hc12; done.
  - intros r c Hc. destruct (Ho12 _ _ Hc) as (c2 & Hc2 & Hid2 & Hdir2 & Heq2).
    destruct (Ho23 _ _ Hc2) as (c3 & Hc3 & Hid3 & Hdir3 & Heq3).
    exists c3. repeat split; [done|congruence|congruence|].
    intros Hne. rewrite Heq3, Heq2; congruence.
Qed.

(** Updates that touch neither the registry, nor the objects, nor what
    was sent. *)
Lemma frame_same (w : string) (st st' : State) :
  containers st' = containers st ->
  objects st' = objects st ->
  next_ref st' = next_ref st ->
  sent st' = sent st ->
  frame w st st'.
Proof.
  intros Hc Ho Hn Hs [Hreg Hfresh]. split; [split|].
  - intros w' r' Hw'. rewrite Hc in Hw'. rewrite Ho. by apply Hreg.
  - intros r' Hr'. rewrite Hn in Hr'. rewrite Ho. by apply Hfresh.
  - split; [done|]. split; [intros; by rewrite Hc|].
    intros r c H. rewrite Ho. by exists c.
Qed.

(** An update in place of an object made for [w]. *)
Lemma frame_alter (w : string) (f : Container -> Container) (r : nat) (st : State) :
  (registry_ok st -> forall c, objects st !! r = Some c -> id c = w) ->
  preserves f ->
  frame w st (set_objects (alter f r) st).
Proof.
  intros Hmine Hf Hok. pose proof (Hmine Hok) as Hr. destruct Hok as [Hreg Hfresh].
  assert (Hobj : forall r' c, objects st !! r' = Some c ->
            exists c', alter f r (objects st) !! r' = Some c' /\ id c' = id c
                       /\ dir c' = dir c /\ (id c <> w -> c' = c)).
  { intros r' c Hc. destruct (decide (r = r')) as [->|Hne].
    - rewrite lookup_alter_eq, Hc. exists (f c). split; [done|].
      destruct (Hf c) as [-> ->]. split; [done|]. split; [done|].
      intros Hid. destruct Hid. by apply Hr.
    - rewrite lookup_alter_ne by done. eauto 10. }
  split; [split|]; state_simpl.
  - intros w' r' Hw'. destruct (Hreg _ _ Hw') as (c & Hc & Hid & Hdir).
    destruct (Hobj _ _ Hc) as (c' & Hc' & Hid' & Hdir' & _).
    exists c'. split; [done|]. split; congruence.
  - intros r' Hr'. rewrite lookup_alter_None. by apply Hfresh.
  - split; [done|]. split; done.
Qed.

(** [get_or_create] for [w]. *)
Lemma frame_get_or_create (w : string) (st st1 : State) (r : nat) :
  get_or_create w st = Some (r, st1) ->
  frame w st st1.
Proof.
  intros [[-> _]|(Hnone & -> & d & ->)]%get_or_create_cases; [apply frame_refl|].
  intros [Hreg Hfresh].
  assert (Hnew : objects st !! next_ref st = None) by by apply Hfresh.
  split; [split|]; state_simpl.
  - intros w' r' Hw'. destruct (decide (w = w')) as [<-|Hne].
    + rewrite lookup_insert_eq in Hw'. injection Hw' as <-.
      rewrite lookup_insert_eq. eauto.
    + rewrite lookup_insert_ne in Hw' by done.
      destruct (Hreg _ _ Hw') as (c & Hc & Hid & Hdir).
      exists c. rewrite lookup_insert_ne by congruence. done.
  - intros r' Hr'. rewrite lookup_insert_ne by lia. apply Hfresh. lia.
  - split; [done|]. split.
    + intros w' Hw'. by rewrite lookup_insert_ne.
    + intros r' c Hc. exists c. rewrite lookup_insert_ne by congruence. done.
Qed.

(** Dropping the registry entry of [w]. *)
Lemma frame_delete (w : string) (st : State) :
  frame w st (set_containers (delete w) st).
Proof.
  intros [Hreg Hfresh]. split; [split|]; cbn.
  - intros w' r' Hw'. apply lookup_delete_Some in Hw' as [_ Hw']. eauto.
  - done.
  - split; [done|]. split; [|eauto 10].
    intros w' Hw'. by rewrite lookup_delete_ne.
Qed.

Lemma get_or_create_mine (w : string) (st st1 : State) (r : nat) :
  get_or_create w st = Some (r, st1) ->
  registry_ok st1 -> forall c, objects st1 !! r = Some c -> id c = w.
Proof.
  intros Hgoc [Hreg _] c Hc.
  destruct (get_or_create_registered _ _ _ _ Hgoc) as (Hr & _).
  destruct (Hreg _ _ Hr) as (c' & Hc' & Hid & _). congruence.
Qed.

Lemma containers_get_mine (w : string) (st : State) (r : nat) (c0 : Container) :
  containers_get st w = Some (r, c0) ->
  registry_ok st -> forall c, objects st !! r = Some c -> id c = w.
Proof.
  unfold containers_get. intros Hget [Hreg _] c Hc.
  destruct (containers st !! w) as [r0|] eqn:Hr; [|done].
  destruct (Hreg _ _ Hr) as (c' & Hc' & Hid & _).
  rewrite Hc' in Hget. injection Hget as <- <-. congruence.
Qed.

Lemma push_sent_nil (st : State) : push_sent [] st = st.
Proof. destruct st. unfold push_sent. cbn. by rewrite app_nil_r. Qed.

Lemma confined_quiet (w : string) (sock : option nat) (st st' : State) :
  frame w st st' -> confined w sock st st'.
Proof.
  intros H. exists st', []. split; [done|]. split; [by rewrite push_sent_nil|].
  intros ws ev Hin. by apply elem_of_nil in Hin.
Qed.

Lemma confined_broadcast (w : string) (sock : option nat) (data : Event)
      (st mid : State) :
  frame w st mid -> confined w sock st (broadcastToContainer w data mid).
Proof.
  intros H. unfold broadcastToContainer.
  destruct (containers_get mid w) as [[r c]|] eqn:Hget; [|by apply confined_quiet].
  exists mid. eexists. split; [done|]. split; [done|].
  intros ws ev (client & [= -> ->] & Hin)%list_elem_of_fmap.
  apply list_elem_of_filter in Hin as [_ Hin]. left. by exists r, c.
Qed.

Lemma confined_send (w : string) (ws : nat) (data : Event) (st mid : State) :
  frame w st mid -> confined w (Some ws) st (push_sent [(ws, data)] mid).
Proof.
  intros H. exists mid, [(ws, data)]. split; [done|]. split; [done|].
  intros ws' ev ->%list_elem_of_singleton%pair_eq%proj1. by right.
Qed.

Lemma frame_set_open_ws (w : string) (f : gset nat -> gset nat) (st : State) :
  frame w st (set_open_ws f st).
Proof. by apply frame_same. Qed.

Lemma frame_set_disk (w : string) (d : gmap (list string) fs.node) (st : State) :
  frame w st (set_disk d st).
Proof. by apply frame_same. Qed.

Lemma frame_set_env (w : string) (f : gmap string string -> gmap string string)
      (st : State) :
  frame w st (set_env f st).
Proof. by apply frame_same. Qed.

Lemma frame_resize (w : string) (cols rows : json) (st : State) :
  frame w st (resize cols rows st).
Proof.
  unfold resize. destruct (js.toString cols); [|apply frame_refl].
  destruct (js.toString rows); by apply frame_same.
Qed.

Lemma on_connection_confined (ws : nat) (w : string) (st st' : State) :
  step (ws_connect ws w) st = Some st' -> confined w (Some ws) st st'.
Proof.
  unfold step, on_connection.
  pose proof (frame_set_open_ws w (fun s => {[ws]} ∪ s) st) as F0.
  destruct (String.eqb w "").
  { intros [= <-]. apply confined_quiet.
    eapply frame_trans; [exact F0|apply frame_set_open_ws]. }
  destruct (get_or_create w _) as [[r st1]|] eqn:Hgoc; [|done].
  pose proof (frame_get_or_create _ _ _ _ Hgoc) as F1.
  pose proof (frame_alter w (set_clients (set_add ws)) r st1
                (get_or_create_mine _ _ _ _ Hgoc) (preserves_set_clients _)) as F2.
  destruct (ws_send ws _ _) as [st3|] eqn:Hsend; [|done].
  apply ws_send_Some in Hsend as [-> _]. intros [= <-].
  apply confined_send. eauto using frame_trans.
Qed.

Lemma on_message_confined (ws : nat) (w : string) (parsed : option json)
      (st : State) :
  confined w (Some ws) st (on_message ws w parsed st).
Proof.
  unfold on_message.
  destruct parsed as [data|]; [|apply confined_quiet, frame_refl].
  destruct (js.prop data "type") as [type|]; [|apply confined_quiet, frame_refl].
  destruct (negb (js.truthy type)).
  { destruct (ws_send ws _ st) as [st1|] eqn:Hsend;
      [|apply confined_quiet, frame_refl].
    apply ws_send_Some in Hsend as [-> _]. apply confined_send, frame_refl. }
  destruct (containers_get st w) as [[r c]|] eqn:Hget.
  2:{ destruct (ws_send ws _ st) as [st1|] eqn:Hsend;
        [|apply confined_quiet, frame_refl].
      apply ws_send_Some in Hsend as [-> _]. apply confined_send, frame_refl. }
  destruct (js.is_str type "file-change"); [apply confined_broadcast, frame_refl|].
  destruct (js.is_str type "preview-ready"); [apply confined_broadcast, frame_refl|].
  destruct (js.is_str type "terminal-input").
  { apply confined_quiet. unfold terminal_input.
    repeat first
      [ apply frame_refl
      | by apply frame_same
      | match goal with
        | |- context [match ?x with _ => _ end] => destruct x
        end ]. }
  destruct (js.is_str type "terminal-resize"); [|apply confined_quiet, frame_refl].
  apply confined_quiet. unfold terminal_resize.
  repeat first
    [ apply frame_refl
    | apply frame_resize
    | match goal with
      | |- context [match ?x with _ => _ end] => destruct x
      end ].
Qed.

Lemma on_close_confined (ws : nat) (w : string) (st : State) :
  confined w (Some ws) st (on_close ws w st).
Proof.
  apply confined_quiet. unfold on_close.
  pose proof (frame_set_open_ws w (fun s => s ∖ {[ws]}) st) as F0.
  destruct (containers_get _ w) as [[r c]|] eqn:Hget; [|done].
  pose proof (frame_alter w (set_clients (set_delete ws)) r _
                (containers_get_mine _ _ _ _ Hget) (preserves_set_clients _)) as F1.
  destruct (set_delete ws (clients c)); [|eauto using frame_trans].
  eapply frame_trans; [exact F0|]. eapply frame_trans; [exact F1|].
  by apply frame_same.
Qed.

Lemma on_error_confined (ws : nat) (w message : string) (st : State) :
  confined w (Some ws) st (on_error ws message st).
Proof.
  unfold on_error. destruct (decide _); [|apply confined_quiet, frame_refl].
  apply confined_send, frame_refl.
Qed.

Lemma on_idle_timeout_confined (w : string) (st : State) :
  confined w None st (on_idle_timeout w st).
Proof.
  apply confined_quiet. unfold on_idle_timeout.
  destruct (containers_get st w) as [[r c]|]; [|apply frame_refl].
  destruct (clients c); [apply frame_delete|apply frame_refl].
Qed.

Lemma files_write_confined (w filePath : string) (content : option string)
      (st : State) :
  confined w None st (files_write w filePath content st).1.
Proof.
  unfold files_write.
  destruct content as [content|]; [|apply confined_quiet, frame_refl].
  destruct (String.eqb filePath ""); [apply confined_quiet, frame_refl|].
  destruct (get_or_create w st) as [[r st1]|] eqn:Hgoc;
    [|apply confined_quiet, frame_refl].
  pose proof (frame_get_or_create _ _ _ _ Hgoc) as F1.
  destruct (objects st1 !! r) as [c|] eqn:Hobj; [|by apply confined_quiet].
  destruct (fs.mkdirSync (disk st1) _ true) as [d2|]; [|by apply confined_quiet].
  pose proof (frame_set_disk w d2 st1) as F2.
  destruct (fs.writeFileSync d2 _ _) as [d3|];
    [|apply confined_quiet; eauto using frame_trans].
  pose proof (frame_set_disk w d3 (set_disk d2 st1)) as F3.
  apply confined_broadcast.
  eapply frame_trans; [exact F1|]. eapply frame_trans; [exact F2|].
  eapply frame_trans; [exact F3|].
  apply frame_alter; [exact (get_or_create_mine w st st1 r Hgoc)|apply preserves_set_files].
Qed.

Lemma files_mkdir_confined (w dirPath : string) (recursive : bool) (st : State) :
  confined w None st (files_mkdir w dirPath recursive st).1.
Proof.
  apply confined_quiet. unfold files_mkdir.
  destruct (String.eqb dirPath ""); [apply frame_refl|].
  destruct (get_or_create w st) as [[r st1]|] eqn:Hgoc; [|apply frame_refl].
  pose proof (frame_get_or_create _ _ _ _ Hgoc) as F1.
  destruct (objects st1 !! r) as [c|]; [|done].
  destruct (fs.mkdirSync (disk st1) _ _) as [d2|]; [|done].
  eapply frame_trans; [exact F1|apply frame_set_disk].
Qed.

Lemma files_rm_confined (w filePath : string) (recursive : bool) (st : State) :
  confined w None st (files_rm w filePath recursive st).1.
Proof.
  unfold files_rm.
  destruct (String.eqb filePath ""); [apply confined_quiet, frame_refl|].
  destruct (containers_get st w) as [[r c]|] eqn:Hget;
    [|apply confined_quiet, frame_refl].
  cbv zeta.
  destruct (negb (fs.existsSync _ _)); [apply confined_quiet, frame_refl|].
  match goal with
  | |- context [match ?x with Some _ => _ | None => _ end] => destruct x as [d|]
  end; [|apply confined_quiet, frame_refl].
  apply confined_broadcast.
  eapply frame_trans; [apply (frame_set_disk w d)|].
  apply frame_alter; [|apply preserves_set_files].
  exact (containers_get_mine w (set_disk d st) r c Hget).
Qed.

Lemma files_read_confined (w filePath : string) (st : State) :
  confined w None st (files_read w filePath st).1.
Proof.
  apply confined_quiet. unfold files_read.
  destruct (String.eqb filePath ""); [apply frame_refl|].
  destruct (containers_get st w) as [[r c]|] eqn:Hget; [|apply frame_refl].
  destruct (files c !! filePath); [apply frame_refl|]. cbv zeta.
  destruct (fs.existsSync _ _); [|apply frame_refl].
  destruct (fs.readFileSync _ _); [|apply frame_refl].
  apply frame_alter; [|apply preserves_set_files].
  exact (containers_get_mine w st r c Hget).
Qed.

Lemma execute_confined (w command : string) (args : list string) (cwd : string)
      (terminal : option json) (newId : string) (st : State) :
  confined w None st (execute w command args cwd terminal newId st).1.1.
Proof.
  apply confined_quiet. unfold execute.
  destruct (String.eqb command ""); [apply frame_refl|].
  destruct (get_or_create w st) as [[r st1]|] eqn:Hgoc; [|apply frame_refl].
  pose proof (frame_get_or_create _ _ _ _ Hgoc) as F1.
  destruct (objects st1 !! r) as [c|] eqn:Hobj; [|done].
  destruct (fs.mkdirSync (disk st1) _ true) as [d2|]; [|done].
  pose proof (frame_set_disk w d2 st1) as F2. cbv zeta.
  destruct (exec_env terminal _) as [e|]; [|eauto using frame_trans].
  eapply frame_trans; [exact F1|]. eapply frame_trans; [exact F2|].
  apply frame_alter; [exact (get_or_create_mine w st st1 r Hgoc)|
                     apply preserves_set_processes].
Qed.

(** The two listeners that report the end of a child. *)
Lemma completion_confined (p : ChildProcess) (data : Event) (st : State) :
  closure_ok st p ->
  confined (owner_previewId p) None st
    (broadcastToContainer (owner_previewId p) data
       (set_objects (alter (set_processes (delete (processId p))) (owner p)) st)).
Proof.
  intros (c & Hc & Hid). apply confined_broadcast, frame_alter.
  - intros _ c' Hc'. congruence.
  - apply preserves_set_processes.
Qed.

Lemma emit_confined (p : ChildProcess) (ev : ChildEvent) (st st' : State) :
  closure_ok st p ->
  emit p ev st = Some st' ->
  confined (owner_previewId p) None st st'.
Proof.
  intros Hclosure. unfold emit, listeners.
  destruct ev as [code|name|stream data|error out err], (launch p);
    try discriminate; intros [= <-]; cbn [fold_left];
    try (apply confined_quiet, frame_refl).
  - by apply completion_confined.
  - by apply completion_confined.
  - unfold tail_on_data, branch_on_data, broadcastToContainer.
    destruct (containers_get st _) as [[r c]|] eqn:Hget.
    + rewrite push_sent_containers_get, Hget, push_sent_twice.
      exists st. eexists. split; [apply frame_refl|]. split; [done|].
      intros ws ev' [Hin|Hin]%elem_of_app;
        apply list_elem_of_fmap in Hin as (client & [= -> ->] & Hin);
        apply list_elem_of_filter in Hin as [_ Hin]; left; by exists r, c.
    + rewrite Hget. apply confined_quiet, frame_refl.
  - unfold tail_on_data, branch_on_data, broadcastToContainer.
    destruct (containers_get st _) as [[r c]|] eqn:Hget.
    + rewrite push_sent_containers_get, Hget, push_sent_twice.
      exists st. eexists. split; [apply frame_refl|]. split; [done|].
      intros ws ev' [Hin|Hin]%elem_of_app;
        apply list_elem_of_fmap in Hin as (client & [= -> ->] & Hin);
        apply list_elem_of_filter in Hin as [_ Hin]; left; by exists r, c.
    + rewrite Hget. apply confined_quiet, frame_refl.
  - by apply completion_confined.
Qed.

(** Every callback is confined to its workspace and its socket. *)
Lemma step_confined (op : Op) (st st' : State) :
  op_ok st op ->
  step op st = Some st' ->
  confined (workspace_of op) (socket_of op) st st'.
Proof.
  intros Hop Hstep.
  destruct op as [ws w|ws w parsed|ws w|ws w message|w|w filePath content
                 |w dirPath recursive|w filePath recursive|w filePath
                 |w command args cwd terminal newId|p ev];
    cbn [workspace_of socket_of].
  - by apply on_connection_confined.
  - injection Hstep as <-. apply on_message_confined.
  - injection Hstep as <-. apply on_close_confined.
  - injection Hstep as <-. apply (on_error_confined ws w message).
  - injection Hstep as <-. apply on_idle_timeout_confined.
  - injection Hstep as <-. apply files_write_confined.
  - injection Hstep as <-. apply files_mkdir_confined.
  - injection Hstep as <-. apply files_rm_confined.
  - injection Hstep as <-. apply files_read_confined.
  - injection Hstep as <-. apply execute_confined.
  - by apply (emit_confined p ev).
Qed.

Lemma confined_registry_ok (w : string) (sock : option nat) (st st' : State) :
  registry_ok st -> confined w sock st st' -> registry_ok st'.
Proof.
  intros Hok (mid & msgs & Hframe & -> & _). by destruct (Hframe Hok) as [Hmid _].
Qed.

Lemma confined_closure_ok (w : string) (sock : option nat) (st st' : State)
      (p : ChildProcess) :
  registry_ok st -> confined w sock st st' -> closure_ok st p -> closure_ok st' p.
Proof.
  intros Hok (mid & msgs & Hframe & -> & _) (c & Hc & Hid).
  destruct (Hframe Hok) as (_ & _ & _ & Hobj).
  destruct (Hobj _ _ Hc) as (c' & Hc' & Hid' & _). exists c'. split; [done|congruence].
Qed.


(** The invariants are kept by every callback. *)
Lemma step_registry_ok (op : Op) (st st' : State) :
  registry_ok st -> op_ok st op -> step op st = Some st' -> registry_ok st'.
Proof. eauto using confined_registry_ok, step_confined. Qed.

Lemma step_closure_ok (op : Op) (st st' : State) (p : ChildProcess) :
  registry_ok st -> op_ok st op -> step op st = Some st' ->
  closure_ok st p -> closure_ok st' p.
Proof. eauto using confined_closure_ok, step_confined. Qed.

(** The child the route starts has a well-formed closure. *)
Lemma execute_closure_ok (w command : string) (args : list string) (cwd : string)
      (terminal : option json) (newId : string) (st st' : State)
      (answer : Response) (p : ChildProcess) :
  registry_ok st ->
  execute w command args cwd terminal newId st = (st', answer, Some p) ->
  closure_ok st' p /\ owner_previewId p = w /\ processId p = newId.
Proof.
  intros Hok. unfold execute.
  destruct (String.eqb command ""); [done|].
  destruct (get_or_create w st) as [[r st1]|] eqn:Hgoc; [|done].
  pose proof (frame_get_or_create _ _ _ _ Hgoc Hok) as (Hok1 & _).
  pose proof (get_or_create_mine _ _ _ _ Hgoc Hok1) as Hmine.
  destruct (objects st1 !! r) as [c|] eqn:Hobj; [|done].
  destruct (fs.mkdirSync (disk st1) _ true) as [d2|]; [|done]. cbv zeta.
  destruct (exec_env terminal _) as [e|]; [|done].
  intros [= <- _ <-]. unfold closure_ok. state_simpl.
  match goal with
  | |- context [if String.eqb ?x "/bin/bash" then _ else _] =>
      destruct (String.eqb x "/bin/bash")
  end;
    cbn [owner owner_previewId processId];
    (split; [|done]); eexists;
    (split; [rewrite lookup_alter_eq, Hobj; reflexivity|]);
    change (id c = w); by apply Hmine.
Qed.

(** A run of socket and HTTP callbacks keeps the registry well formed. *)
Lemma run_registry_ok (ops : list Op) (st st' : State) :
  registry_ok st ->
  Forall (fun op => forall s, op_ok s op) ops ->
  run ops st = Some st' ->
  registry_ok st'.
Proof.
  revert st. induction ops as [|op ops IH]; intros st Hok Hops Hrun.
  - by injection Hrun as <-.
  - apply Forall_cons in Hops as [Hop Hops]. cbn [run] in Hrun.
    destruct (step op st) as [st1|] eqn:Hstep; [|done].
    eapply IH; [|done..]. eauto using step_registry_ok.
Qed.

End Isolation.



(** The same write, evaluated: the client of ["w"] is told, the client of
    ["v"] is not, and the session of ["v"] is what it was. *)
Example write_reaches_own_clients_only :
  sent (files_write "w" "a.txt" (Some "x") two_sessions).1
  = [(1, connection_established "w" None);
     (2, connection_established "v" None);
     (1, file_change "w" "a.txt")]
  /\ containers_get (files_write "w" "a.txt" (Some "x") two_sessions).1 "v"
     = Some (1, {| id := "v"; dir := "/data/v"; clients := [2]; files := ∅;
                   processes := ∅ |}).
Proof. repeat split; vm_compute; reflexivity. Qed.

(** The disk is shared as well: a path with [".."] leaves the directory of
    the session it is written through. *)
Example write_with_dotdot_lands_elsewhere :
  disk (files_write "w" "../v/a.txt" (Some "x") two_sessions).1
  !! ["data"; "v"; "a.txt"] = Some (fs.File "x").
Proof. vm_compute. reflexivity. Qed.


(** ** Further examples *)

Lemma part000_ack_counts_clients_witness :
  exists st' r c,
    on_connection_part000 2 (Some "w") (Some "p1") connected_state = Attached st'
    /\ containers_get st' "w" = Some (r, c)
    /\ 2 ∈ clients c
    /\ sent st' = sent connected_state
                  ++ [(2, connection_established "w" (Some (Some "p1", length (clients c))))].
Proof.
  eexists.
  destruct (part000_ack_counts_clients 2 "w" (Some "p1") connected_state _ eq_refl)
    as (r & c & H).
  exists r, c. split; [reflexivity|exact H].
Defined.

Example part000_second_client :
  exists st',
    on_connection_part000 2 (Some "w") (Some "p1") connected_state = Attached st'
    /\ sent st' = [(1, connection_established "w" None);
                   (2, connection_established "w" (Some (Some "p1", 2)))].
Proof. eexists. split; vm_compute; reflexivity. Qed.

Lemma on_exit_removes_handle_witness :
  objects (on_exit shell (Some 3%Z) shell_state) !! owner shell
  = Some (set_processes (delete (processId shell))
            {| id := "w"; dir := "/data/w"; clients := [1]; files := ∅;
               processes := {[ "p1" := shell ]} |})
  /\ on_exit shell (Some 3%Z) shell_state
     = broadcastToContainer (owner_previewId shell)
         (process_completed (owner_previewId shell) (processId shell)
            (CodeNum (default 0%Z (Some 3%Z))) "" "")
         (set_objects (alter (set_processes (delete (processId shell))) (owner shell))
            shell_state).
Proof.
  apply (on_exit_removes_handle shell (Some 3%Z) shell_state). vm_compute. reflexivity.
Defined.

Lemma exec_callback_reports_witness :
  objects (exec_callback job (Some (CodeNum 127)) "" "sh: ls: not found" job_state)
    !! owner job
  = Some (set_processes (delete (processId job))
            {| id := "w"; dir := "/data/w"; clients := [1]; files := ∅;
               processes := {[ "p2" := job ]} |})
  /\ exec_callback job (Some (CodeNum 127)) "" "sh: ls: not found" job_state
     = broadcastToContainer (owner_previewId job)
         (process_completed (owner_previewId job) (processId job)
            (default (CodeNum 0) (Some (CodeNum 127))) "" "sh: ls: not found")
         (set_objects (alter (set_processes (delete (processId job))) (owner job))
            job_state).
Proof.
  apply (exec_callback_reports job (Some (CodeNum 127)) "" "sh: ls: not found" job_state).
  vm_compute. reflexivity.
Defined.

Example command_not_found_reported :
  sent (exec_callback job (Some (CodeNum 127)) "" "sh: ls: not found" job_state)
  = [(1, connection_established "w" None);
     (1, process_completed "w" "p2" (CodeNum 127) "" "sh: ls: not found")].
Proof. vm_compute. reflexivity. Qed.

(* ===================================================================== *)
(** ** The file store, sessions and processes, further *)
(* ===================================================================== *)

Section Disk.

(** [mkdir -p] only adds directories, at or below the path it is given. *)
Lemma mkdirp_adds_dirs (segs : list string) (d d' : gmap (list string) fs.node)
      (pre : list string) :
  fs.mkdirp d pre segs = Some d' ->
  forall k, d' !! k = d !! k \/ (d !! k = None /\ d' !! k = Some fs.Dir).
Proof.
  revert d pre. induction segs as [|seg rest IH]; intros d pre H k.
  - injection H as <-. by left.
  - cbn [fs.mkdirp] in H.
    destruct (d !! (pre ++ [seg])) as [[c|]|] eqn:Hhere; [done|by eapply IH|].
    destruct (IH _ _ H k) as [Hk|[Hk1 Hk2]].
    + destruct (decide (pre ++ [seg] = k)) as [<-|Hne].
      * rewrite lookup_insert_eq in Hk. right. done.
      * rewrite lookup_insert_ne in Hk by done. by left.
    + destruct (decide (pre ++ [seg] = k)) as [<-|Hne].
      * by rewrite lookup_insert_eq in Hk1.
      * rewrite lookup_insert_ne in Hk1 by done. right. done.
Qed.

(** After [mkdir -p] every directory on the way exists. *)
Lemma mkdirp_makes_dirs (segs : list string) (d d' : gmap (list string) fs.node)
      (pre : list string) :
  fs.mkdirp d pre segs = Some d' ->
  forall i, 0 < i <= length segs -> d' !! (pre ++ take i segs) = Some fs.Dir.
Proof.
  revert d pre. induction segs as [|seg rest IH]; intros d pre H i Hi; [cbn in Hi; lia|].
  cbn [fs.mkdirp] in H. cbn [length] in Hi.
  assert (Hstep : exists d1, fs.mkdirp d1 (pre ++ [seg]) rest = Some d'
                             /\ d1 !! (pre ++ [seg]) = Some fs.Dir).
  { destruct (d !! (pre ++ [seg])) as [[c|]|] eqn:Hhere; [done|by exists d|].
    eexists. split; [done|]. apply lookup_insert_eq. }
  destruct Hstep as (d1 & H1 & Hd1).
  destruct i as [|i]; [lia|]. cbn [take]. destruct i as [|i].
  - rewrite take_0. destruct (mkdirp_adds_dirs _ _ _ _ H1 (pre ++ [seg])) as [->|[Hn _]];
      [done|congruence].
  - replace (pre ++ seg :: take (S i) rest) with ((pre ++ [seg]) ++ take (S i) rest)
      by by rewrite <- app_assoc.
    eapply IH; [done|lia].
Qed.

(** [mkdir -p] on directories that exist changes nothing. *)
Lemma mkdirp_existing (segs : list string) (d : gmap (list string) fs.node)
      (pre : list string) :
  (forall i, 0 < i <= length segs -> d !! (pre ++ take i segs) = Some fs.Dir) ->
  fs.mkdirp d pre segs = Some d.
Proof.
  revert pre. induction segs as [|seg rest IH]; intros pre H; [done|].
  cbn [fs.mkdirp]. pose proof (H 1) as H1. cbn [take length] in H1.
  rewrite take_0 in H1. rewrite H1 by lia. apply IH.
  intros i Hi. rewrite <- app_assoc. apply (H (S i)). cbn [length]. lia.
Qed.

Lemma mkdirp_resolve (d d' : gmap (list string) fs.node) (p : string) :
  fs.mkdirp d [] (path.segments p) = Some d' ->
  fs.resolve d' p = Some fs.Dir.
Proof.
  intros H. unfold fs.resolve, fs.lookup_segs.
  destruct (path.segments p) as [|seg segs] eqn:Hsegs; [done|].
  pose proof (mkdirp_makes_dirs _ _ _ _ H (length (seg :: segs))) as Hdir.
  rewrite firstn_all in Hdir. cbn [app] in Hdir. rewrite Hdir; [done|]. cbn. lia.
Qed.

Lemma unlinkSync_gone (d d' : gmap (list string) fs.node) (p : string) :
  fs.unlinkSync d p = Some d' ->
  fs.resolve d' p = None
  /\ forall k, k <> path.segments p -> d' !! k = d !! k.
Proof.
  unfold fs.unlinkSync, fs.resolve, fs.lookup_segs. intros H.
  destruct (path.segments p) as [|seg segs] eqn:Hsegs; [done|].
  destruct (d !! (seg :: segs)) as [[c|]|]; [|done..].
  destruct (path.ends_with_slash p); [done|]. injection H as <-.
  rewrite lookup_delete_eq. split; [done|]. intros k Hk. by rewrite lookup_delete_ne.
Qed.

Lemma rmdirSync_gone (d d' : gmap (list string) fs.node) (p : string) (recursive : bool) :
  fs.rmdirSync d p recursive = Some d' ->
  fs.resolve d' p = None
  /\ (forall k, ~ path.segments p `prefix_of` k -> d' !! k = d !! k)
  /\ (forall k, path.segments p `prefix_of` k -> d' !! k = None)
  /\ (recursive = false ->
      forall k, path.segments p `prefix_of` k -> k <> path.segments p -> d !! k = None).
Proof.
  unfold fs.rmdirSync, fs.resolve, fs.lookup_segs. intros H.
  destruct (path.segments p) as [|seg segs] eqn:Hsegs; [done|].
  destruct (d !! (seg :: segs)) as [[c|]|] eqn:Hd; [done| |done].
  destruct recursive.
  - injection H as <-.
    assert (Hin : forall k, seg :: segs `prefix_of` k ->
              filter (fun entry : list string * fs.node =>
                        ~ seg :: segs `prefix_of` entry.1) d !! k = None).
    { intros k Hk. apply map_lookup_filter_None. right. intros x _ Hx. by apply Hx. }
    rewrite Hin by done. split; [done|]. split; [|split; [done|done]].
    intros k Hk. destruct (d !! k) as [x|] eqn:Hx.
    + by apply map_lookup_filter_Some.
    + apply map_lookup_filter_None. by left.
  - destruct (decide _) as [Hempty|]; [|done]. injection H as <-.
    rewrite lookup_delete_eq. split; [done|].
    assert (Hno : forall k, seg :: segs `prefix_of` k -> k <> seg :: segs -> d !! k = None).
    { intros k Hk Hne. destruct (d !! k) as [x|] eqn:Hx; [|done].
      destruct Hne. by apply (Hempty k x). }
    split; [|split; [|by intros _]].
    + intros k Hk. apply lookup_delete_ne. intros <-. by apply Hk.
    + intros k Hk. destruct (decide (k = seg :: segs)) as [->|Hne].
      * apply lookup_delete_eq.
      * rewrite lookup_delete_ne by done. by apply Hno.
Qed.

End Disk.

Section Routes.

(** How a remove that succeeded went. *)
Lemma files_rm_success (w filePath : string) (recursive : bool) (st st' : State) :
  files_rm w filePath recursive st = (st', success) ->
  filePath <> ""
  /\ exists r c d,
      containers_get st w = Some (r, c)
      /\ (fs.unlinkSync (disk st) (path.join (dir c) filePath) = Some d
          \/ fs.rmdirSync (disk st) (path.join (dir c) filePath) recursive = Some d)
      /\ st' = broadcastToContainer w (file_change w filePath)
                 (set_objects (alter (set_files (delete filePath)) r) (set_disk d st)).
Proof.
  unfold files_rm. destruct (String.eqb_spec filePath ""); [done|].
  destruct (containers_get st w) as [[r c]|] eqn:Hget; [|done]. cbv zeta.
  destruct (negb (fs.existsSync _ _)); [done|].
  destruct (fs.isDirectory _ _) as [[|]|]; [| |done].
  - destruct (fs.rmdirSync _ _ _) as [d|] eqn:Hd; [|done]. intros [= <-].
    split; [done|]. exists r, c, d. eauto.
  - destruct (fs.unlinkSync _ _) as [d|] eqn:Hd; [|done]. intros [= <-].
    split; [done|]. exists r, c, d. eauto.
Qed.

Lemma containers_get_Some (st : State) (w : string) (r : nat) (c : Container) :
  containers_get st w = Some (r, c) ->
  containers st !! w = Some r /\ objects st !! r = Some c.
Proof.
  unfold containers_get. destruct (containers st !! w) as [r'|]; [|done].
  destruct (objects st !! r') as [c'|] eqn:Hc; [|done]. by intros [= <- <-].
Qed.

Lemma containers_get_alter (st : State) (w : string) (r : nat) (c : Container)
      (f : Container -> Container) :
  containers_get st w = Some (r, c) ->
  containers_get (set_objects (alter f r) st) w = Some (r, f c).
Proof.
  intros [Hreg Hobj]%containers_get_Some. unfold containers_get. state_simpl.
  by rewrite Hreg, lookup_alter_eq, Hobj.
Qed.

(** After a remove that succeeded nothing is left at the path, and the
    session is the one that was there, less its cache entry. *)
Lemma files_rm_gone (w filePath : string) (recursive : bool) (st st' : State) :
  files_rm w filePath recursive st = (st', success) ->
  exists r c,
    containers_get st w = Some (r, c)
    /\ containers_get st' w = Some (r, set_files (delete filePath) c)
    /\ disk st' !! path.segments (path.join (dir c) filePath) = None.
Proof.
  intros (Hpath & r & c & d & Hget & Hrm & ->)%files_rm_success.
  exists r, c. split; [done|]. rewrite broadcast_containers_get.
  split; [by apply (containers_get_alter (set_disk d st))|].
  destruct (broadcast_frame w (file_change w filePath)
              (set_objects (alter (set_files (delete filePath)) r) (set_disk d st)))
    as (_ & _ & _ & -> & _).
  state_simpl. destruct Hrm as [Hrm|Hrm].
  - unfold fs.unlinkSync in Hrm.
    destruct (fs.resolve (disk st) _) as [[content|]|]; [|done..].
    injection Hrm as <-. apply lookup_delete_eq.
  - by apply rmdirSync_gone in Hrm as (_ & _ & Hin & _); apply Hin.
Qed.

Lemma set_disk_same_disk (d : gmap (list string) fs.node) (st : State) :
  set_disk d (set_disk d st) = set_disk d st.
Proof. done. Qed.

End Routes.

(** X4.  After a remove that succeeded, a read of the same path answers 404
    [File not found]: the cache entry went with the file.  The session
    is the one that was there, less that entry. *)
Theorem rm_then_read_not_found (w filePath : string) (recursive : bool)
        (st st' : State) :
  files_rm w filePath recursive st = (st', success) ->
  files_read w filePath st' = (st', failure 404 "File not found")
  /\ exists r c,
      containers_get st w = Some (r, c)
      /\ containers_get st' w = Some (r, set_files (delete filePath) c).
Proof.
  intros (Hpath & r & c & d & Hget & Hrm & ->)%files_rm_success.
  assert (Hget' : containers_get
            (broadcastToContainer w (file_change w filePath)
               (set_objects (alter (set_files (delete filePath)) r) (set_disk d st))) w
          = Some (r, set_files (delete filePath) c)).
  { rewrite broadcast_containers_get.
    by apply (containers_get_alter (set_disk d st)). }
  split; [|by exists r, c].
  unfold files_read. destruct (String.eqb_spec filePath ""); [done|].
  rewrite Hget'. cbn [files set_files dir]. rewrite lookup_delete_eq. cbv zeta.
  destruct (broadcast_frame w (file_change w filePath)
              (set_objects (alter (set_files (delete filePath)) r) (set_disk d st)))
    as (_ & _ & _ & -> & _).
  state_simpl. unfold fs.existsSync.
  destruct Hrm as [Hrm|Hrm].
  - apply unlinkSync_gone in Hrm as [-> _]. done.
  - apply rmdirSync_gone in Hrm as [-> _]. done.
Qed.

Lemma rm_then_read_not_found_witness :
  exists st',
    files_rm "w" "a/b.txt" false written_state = (st', success)
    /\ files_read "w" "a/b.txt" st' = (st', failure 404 "File not found")
    /\ exists r c,
        containers_get written_state "w" = Some (r, c)
        /\ containers_get st' "w" = Some (r, set_files (delete "a/b.txt") c).
Proof.
  eexists. split; [vm_compute; reflexivity|].
  apply (rm_then_read_not_found "w" "a/b.txt" false written_state).
  vm_compute. reflexivity.
Defined.

(** X5.  A remove that succeeded leaves nothing at the path and touches
    nothing outside it: every path that is not below the target is as it
    was.  Without [recursive] only the target itself goes; a directory
    goes with all that is below it. *)
Theorem rm_deletes_only_target (w filePath : string) (recursive : bool)
        (st st' : State) (r : nat) (c : Container) :
  containers_get st w = Some (r, c) ->
  files_rm w filePath recursive st = (st', success) ->
  disk st' !! path.segments (path.join (dir c) filePath) = None
  /\ (forall k, ~ path.segments (path.join (dir c) filePath) `prefix_of` k ->
                disk st' !! k = disk st !! k)
  /\ (recursive = false ->
      forall k, k <> path.segments (path.join (dir c) filePath) ->
                disk st' !! k = disk st !! k)
  /\ (fs.isDirectory (disk st) (path.join (dir c) filePath) = Some true ->
      forall k, path.segments (path.join (dir c) filePath) `prefix_of` k ->
                disk st' !! k = None).
Proof.
  intros Hget (Hpath & r' & c' & d & Hget' & Hrm & ->)%files_rm_success.
  rewrite Hget in Hget'. injection Hget' as <- <-.
  destruct (broadcast_frame w (file_change w filePath)
              (set_objects (alter (set_files (delete filePath)) r) (set_disk d st)))
    as (_ & _ & _ & -> & _).
  state_simpl. destruct Hrm as [Hrm|Hrm].
  - pose proof Hrm as Hfile. apply unlinkSync_gone in Hrm as [_ Hrest].
    unfold fs.unlinkSync in Hfile. unfold fs.isDirectory.
    destruct (fs.resolve (disk st) _) as [[content|]|]; [|done..].
    injection Hfile as <-.
    split; [apply lookup_delete_eq|]. split; [|split; [|done]].
    + intros k Hk. apply lookup_delete_ne. intros <-. by apply Hk.
    + intros _ k Hk. by apply lookup_delete_ne.
  - apply rmdirSync_gone in Hrm as (_ & Hout & Hin & Hempty).
    split; [by apply Hin|]. split; [done|]. split; [|done].
    intros Hrec k Hk.
    destruct (decide (path.segments (path.join (dir c) filePath) `prefix_of` k)) as [Hp|Hp].
    + by rewrite Hin, Hempty.
    + by apply Hout.
Qed.

Lemma rm_deletes_only_target_witness :
  exists st' r c,
    containers_get tree_state "w" = Some (r, c)
    /\ files_rm "w" "a" true tree_state = (st', success)
    /\ disk st' !! path.segments (path.join (dir c) "a") = None
    /\ (forall k, ~ path.segments (path.join (dir c) "a") `prefix_of` k ->
                  disk st' !! k = disk tree_state !! k)
    /\ (true = false ->
        forall k, k <> path.segments (path.join (dir c) "a") ->
                  disk st' !! k = disk tree_state !! k)
    /\ (fs.isDirectory (disk tree_state) (path.join (dir c) "a") = Some true ->
        forall k, path.segments (path.join (dir c) "a") `prefix_of` k ->
                  disk st' !! k = None).
Proof.
  do 3 eexists. split; [vm_compute; reflexivity|]. split; [vm_compute; reflexivity|].
  eapply (rm_deletes_only_target "w" "a" true tree_state); vm_compute; reflexivity.
Defined.


(** X6.  A directory that still has an entry is not removed without
    [recursive]: [rmdirSync] throws, the route answers 500, and nothing
    changes, neither the disk nor the cache nor the clients' view. *)
Theorem rm_nonempty_needs_recursive (w filePath : string) (st : State) (r : nat)
        (c : Container) (k : list string) (node : fs.node) :
  filePath <> "" ->
  containers_get st w = Some (r, c) ->
  fs.isDirectory (disk st) (path.join (dir c) filePath) = Some true ->
  path.segments (path.join (dir c) filePath) `prefix_of` k ->
  k <> path.segments (path.join (dir c) filePath) ->
  disk st !! k = Some node ->
  files_rm w filePath false st = (st, failure 500 "").
Proof.
  intros Hpath Hget Hdir Hk Hne Hnode. unfold files_rm.
  destruct (String.eqb_spec filePath ""); [done|]. rewrite Hget. cbv zeta.
  rewrite Hdir. unfold fs.existsSync. unfold fs.isDirectory in Hdir.
  destruct (fs.resolve (disk st) _) as [[content|]|]; [done| |done]. cbn [negb].
  unfold fs.rmdirSync.
  destruct (path.segments (path.join (dir c) filePath)) as [|seg segs]; [done|].
  destruct (disk st !! (seg :: segs)) as [[content|]|]; [done| |done].
  destruct (decide _) as [Hempty|]; [|done].
  destruct Hne. by apply (Hempty k node).
Qed.

Lemma rm_nonempty_needs_recursive_witness :
  files_rm "w" "a" false tree_state = (tree_state, failure 500 "").
Proof.
  apply (rm_nonempty_needs_recursive "w" "a" tree_state 0
           {| id := "w"; dir := "/data/w"; clients := [];
              files := {[ "a/b.txt" := "x"; "a/c.txt" := "y"; "d.txt" := "z" ]};
              processes := ∅ |}
           ["data"; "w"; "a"; "b.txt"] (fs.File "x")).
  - done.
  - vm_compute. reflexivity.
  - vm_compute. reflexivity.
  - exists ["b.txt"]. vm_compute. reflexivity.
  - vm_compute. discriminate.
  - vm_compute. reflexivity.
Defined.


(** X7.  Reading is idempotent: a second read of the same path gives the same
    answer and changes nothing any more, and no read changes the disk. *)
Theorem read_twice (w filePath : string) (st st1 : State) (answer : Response) :
  files_read w filePath st = (st1, answer) ->
  files_read w filePath st1 = (st1, answer) /\ disk st1 = disk st.
Proof.
  unfold files_read at 1. intros H.
  destruct (String.eqb_spec filePath "") as [|Hpath];
    [injection H as <- <-; unfold files_read; by destruct (String.eqb_spec filePath "")|].
  destruct (containers_get st w) as [[r c]|] eqn:Hget.
  2:{ injection H as <- <-. unfold files_read.
      destruct (String.eqb_spec filePath ""); [done|]. by rewrite Hget. }
  destruct (files c !! filePath) as [cached|] eqn:Hc.
  { injection H as <- <-. unfold files_read.
    destruct (String.eqb_spec filePath ""); [done|]. by rewrite Hget, Hc. }
  cbv zeta in H.
  destruct (fs.existsSync _ _) eqn:He.
  2:{ injection H as <- <-. unfold files_read.
      destruct (String.eqb_spec filePath ""); [done|]. by rewrite Hget, Hc, He. }
  destruct (fs.readFileSync _ _) as [content|] eqn:Hr.
  2:{ injection H as <- <-. unfold files_read.
      destruct (String.eqb_spec filePath ""); [done|]. by rewrite Hget, Hc, He, Hr. }
  injection H as <- <-. split; [|done]. apply cache_hit; [done|].
  exists r, (set_files (insert filePath content) c). split.
  - by apply containers_get_alter.
  - cbn. apply lookup_insert_eq.
Qed.

Lemma read_twice_witness :
  exists st1,
    files_read "w" "a/b.txt" swept_state = (st1, content_of "x")
    /\ files_read "w" "a/b.txt" st1 = (st1, content_of "x")
    /\ disk st1 = disk swept_state.
Proof.
  eexists. split; [vm_compute; reflexivity|].
  apply (read_twice "w" "a/b.txt" swept_state). vm_compute. reflexivity.
Defined.




(** X9.  After a recursive mkdir that succeeded the path is a directory of
    the workspace; no client was told and no file changed.  Repeating it
    succeeds again without a change, and repeating it without
    [recursive] answers 500, for the directory exists. *)
Theorem mkdir_makes_directory (w dirPath : string) (st st' : State) :
  files_mkdir w dirPath true st = (st', success) ->
  sent st' = sent st
  /\ (forall k text, disk st' !! k = Some (fs.File text) <-> disk st !! k = Some (fs.File text))
  /\ files_mkdir w dirPath true st' = (st', success)
  /\ files_mkdir w dirPath false st' = (st', failure 500 "")
  /\ exists r c,
      containers_get st' w = Some (r, c)
      /\ fs.isDirectory (disk st') (path.join (dir c) dirPath) = Some true.
Proof.
  unfold files_mkdir at 1. intros H.
  destruct (String.eqb_spec dirPath "") as [|Hpath]; [done|].
  destruct (get_or_create w st) as [[r st1]|] eqn:Hgoc; [|done].
  destruct (get_or_create_registered _ _ _ _ Hgoc) as (Hreg & c & Hobj & _).
  rewrite Hobj in H.
  destruct (fs.mkdirSync (disk st1) _ true) as [d|] eqn:Hmk; [|done].
  injection H as <-.
  assert (Hget : containers_get (set_disk d st1) w = Some (r, c)).
  { unfold containers_get. state_simpl. by rewrite Hreg, Hobj. }
  assert (Hdir : fs.resolve d (path.join (dir c) dirPath) = Some fs.Dir)
    by by apply (mkdirp_resolve (disk st1)).
  assert (Hfiles : forall k text, d !! k = Some (fs.File text)
                                  <-> disk st !! k = Some (fs.File text)).
  { intros k text.
    assert (H1 : disk st1 !! k = Some (fs.File text) <-> disk st !! k = Some (fs.File text)).
    { pose proof Hgoc as Hcases.
      apply get_or_create_cases in Hcases as [[-> _]|(Hnone & -> & d0 & ->)]; [done|].
      state_simpl. unfold get_or_create in Hgoc. rewrite Hnone in Hgoc.
      unfold createContainer in Hgoc.
      destruct (fs.mkdirSync _ _ _) as [d1|] eqn:Hmk0; [|done]. injection Hgoc as ->.
      destruct (mkdirp_adds_dirs _ _ _ _ Hmk0 k) as [->|[-> ->]]; done. }
    rewrite <- H1. destruct (mkdirp_adds_dirs _ _ _ _ Hmk k) as [->|[-> ->]]; done. }
  split; [state_simpl; by destruct (get_or_create_sent _ _ _ _ Hgoc) as (-> & _)|].
  split; [exact Hfiles|].
  assert (Hagain : get_or_create w (set_disk d st1) = Some (r, set_disk d st1)).
  { unfold get_or_create. by rewrite Hget. }
  split; [|split].
  - unfold files_mkdir. destruct (String.eqb_spec dirPath ""); [done|].
    rewrite Hagain. state_simpl. rewrite Hobj.
    unfold fs.mkdirSync.
    rewrite (mkdirp_existing _ d []); [by rewrite set_disk_same_disk|].
    intros i Hi. by eapply (mkdirp_makes_dirs _ _ _ _ Hmk).
  - unfold files_mkdir. destruct (String.eqb_spec dirPath ""); [done|].
    rewrite Hagain. state_simpl. rewrite Hobj.
    unfold fs.mkdirSync. unfold fs.resolve in Hdir.
    destruct (path.segments (path.join (dir c) dirPath)) as [|seg segs]; [done|].
    destruct (fs.lookup_segs d (removelast (seg :: segs))) as [[?|]|]; try done.
    destruct (fs.lookup_segs d (seg :: segs)) as [[?|]|]; try done.
  - exists r, c. split; [done|]. state_simpl. unfold fs.isDirectory. by rewrite Hdir.
Qed.

Lemma mkdir_makes_directory_witness :
  exists st',
    files_mkdir "w" "x/y" true connected_state = (st', success)
    /\ sent st' = sent connected_state
    /\ (forall k text, disk st' !! k = Some (fs.File text)
                       <-> disk connected_state !! k = Some (fs.File text))
    /\ files_mkdir "w" "x/y" true st' = (st', success)
    /\ files_mkdir "w" "x/y" false st' = (st', failure 500 "")
    /\ exists r c,
        containers_get st' "w" = Some (r, c)
        /\ fs.isDirectory (disk st') (path.join (dir c) "x/y") = Some true.
Proof.
  eexists. split; [vm_compute; reflexivity|].
  apply (mkdir_makes_directory "w" "x/y" connected_state). vm_compute. reflexivity.
Defined.


Section Delivery.

Lemma filter_none (P : nat -> Prop) `{!forall x, Decision (P x)} (l : list nat) :
  (forall x, x ∈ l -> ~ P x) -> filter P l = [].
Proof.
  induction l as [|x l IH]; intros Hno; [done|].
  rewrite filter_cons_False by (apply Hno; left). apply IH.
  intros y Hy. apply Hno. by right.
Qed.

Lemma filter_eq_nodup (ws : nat) (l : list nat) :
  NoDup l -> ws ∈ l -> filter (fun x => x = ws) l = [ws].
Proof.
  induction 1 as [|x l Hx Hl IH]; intros Hin; [by apply elem_of_nil in Hin|].
  destruct (decide (x = ws)) as [->|Hne].
  - rewrite filter_cons_True by done. f_equal.
    apply filter_none. intros y Hy ->. done.
  - rewrite filter_cons_False by done. apply IH.
    apply elem_of_cons in Hin as [->|Hin]; done.
Qed.

Lemma deliveries_map (ws : nat) (data : Event) (l : list nat) :
  deliveries ws (map (fun client => (client, data)) l)
  = length (filter (fun x => x = ws) l).
Proof.
  unfold deliveries. induction l as [|x l IH]; [done|]. cbn [map].
  destruct (decide (x = ws)) as [->|Hne].
  - rewrite !filter_cons_True by done. cbn. by rewrite IH.
  - rewrite !filter_cons_False by done. done.
Qed.

Lemma broadcast_deliveries (w : string) (data : Event) (st : State)
        (r : nat) (c : Container) :
  containers_get st w = Some (r, c) ->
  NoDup (clients c) ->
  exists msgs,
    broadcastToContainer w data st = push_sent msgs st
    /\ (forall ws, ws ∈ clients c -> ws ∈ open_ws st -> deliveries ws msgs = 1)
    /\ (forall ws, ws ∉ clients c \/ ws ∉ open_ws st -> deliveries ws msgs = 0)
    /\ (forall ws ev, (ws, ev) ∈ msgs -> ev = data).
Proof.
  intros Hget Hnodup. unfold broadcastToContainer. rewrite Hget.
  eexists. split; [reflexivity|]. split; [|split].
  - intros ws Hin Hopen. rewrite deliveries_map, filter_eq_nodup; [done| |].
    + by apply NoDup_filter.
    + by apply list_elem_of_filter.
  - intros ws Hout. rewrite deliveries_map.
    replace (filter (fun x => x = ws) (filter (fun client => client ∈ open_ws st) (clients c)))
      with (@nil nat); [done|].
    symmetry. apply filter_none.
    intros x [Hopen Hx]%list_elem_of_filter ->. by destruct Hout.
  - intros ws ev (client & [= -> ->] & _)%list_elem_of_fmap. done.
Qed.

End Delivery.


Section Lifecycle.

Lemma set_delete_add (ws : nat) (l : list nat) :
  ws ∉ l -> set_delete ws (set_add ws l) = l.
Proof.
  intros Hout. unfold set_add, set_delete. destruct (decide (ws ∈ l)); [done|].
  rewrite filter_app, filter_cons_False, filter_nil, app_nil_r by (intros H; by apply H).
  induction l as [|x l IH]; [done|].
  apply not_elem_of_cons in Hout as [Hx Hl].
  rewrite filter_cons_True by done. f_equal. apply IH; [done|].
  intros Hin. done.
Qed.

Lemma set_clients_restore (ws : nat) (c : Container) :
  ws ∉ clients c ->
  set_clients (set_delete ws) (set_clients (set_add ws) c) = c.
Proof.
  intros Hout. destruct c as [i d cl f p]. unfold set_clients.
  cbn [id dir clients files processes] in *. by rewrite set_delete_add.
Qed.

(** What a successful connection leaves behind. *)
Lemma on_connection_Attached (ws : nat) (w : string) (st st1 : State) :
  on_connection ws (Some w) st = Attached st1 ->
  exists r st0,
    get_or_create w (set_open_ws (fun s => {[ws]} ∪ s) st) = Some (r, st0)
    /\ st1 = push_sent [(ws, connection_established w None)]
               (set_objects (alter (set_clients (set_add ws)) r) st0).
Proof.
  unfold on_connection. destruct (String.eqb w ""); [done|].
  destruct (get_or_create w _) as [[r st0]|]; [|done].
  destruct (ws_send ws _ _) as [st2|] eqn:Hsend; [|done].
  apply ws_send_Some in Hsend as [-> _]. intros [= <-]. by exists r, st0.
Qed.

Lemma set_add_elem (ws : nat) (l : list nat) : ws ∈ set_add ws l.
Proof.
  unfold set_add. destruct (decide (ws ∈ l)); [done|].
  apply elem_of_app. right. by apply list_elem_of_singleton.
Qed.

Lemma attached_after_connection (ws : nat) (w : string) (st st1 : State) :
  on_connection ws (Some w) st = Attached st1 ->
  ws ∈ open_ws st1
  /\ exists r c, containers_get st1 w = Some (r, c) /\ ws ∈ clients c.
Proof.
  intros (r & st0 & Hgoc & ->)%on_connection_Attached.
  destruct (get_or_create_registered _ _ _ _ Hgoc) as (Hreg & c0 & Hobj & _).
  destruct (get_or_create_sent _ _ _ _ Hgoc) as (_ & Hopen & _).
  split.
  - state_simpl. rewrite Hopen. apply elem_of_union. left. by apply elem_of_singleton.
  - exists r, (set_clients (set_add ws) c0). unfold containers_get. state_simpl.
    rewrite Hreg, lookup_alter_eq, Hobj. split; [done|]. apply set_add_elem.
Qed.

End Lifecycle.

(** X10.  A socket that was attached hears the next broadcast of its
    workspace, whatever the event. *)
Theorem connected_client_hears_broadcasts (ws : nat) (w : string) (data : Event)
        (st st1 : State) :
  on_connection ws (Some w) st = Attached st1 ->
  (ws, data) ∈ sent (broadcastToContainer w data st1).
Proof.
  intros (Hopen & r & c & Hget & Hin)%attached_after_connection.
  unfold broadcastToContainer. rewrite Hget. state_simpl.
  apply elem_of_app. right. apply list_elem_of_fmap. exists ws. split; [done|].
  by apply list_elem_of_filter.
Qed.

Lemma connected_client_hears_broadcasts_witness :
  (1, refresh_preview "w") ∈ sent (broadcastToContainer "w" (refresh_preview "w") connected_state).
Proof.
  apply (connected_client_hears_broadcasts 1 "w" (refresh_preview "w") (initial ∅)).
  vm_compute. reflexivity.
Defined.

(** X11.  Attaching a new socket to a session and closing it again gives the
    session back as it was; the idle timer is armed by that close exactly
    when nobody else is attached. *)
Theorem connect_then_close_restores (ws : nat) (w : string) (st st1 : State)
        (r : nat) (c : Container) :
  containers_get st w = Some (r, c) ->
  ws ∉ clients c ->
  on_connection ws (Some w) st = Attached st1 ->
  containers_get (on_close ws w st1) w = Some (r, c)
  /\ timers (on_close ws w st1)
     = match clients c with [] => timers st ++ [w] | _ :: _ => timers st end.
Proof.
  intros Hget Hout (r0 & st0 & Hgoc & ->)%on_connection_Attached.
  unfold get_or_create in Hgoc.
  change (containers_get (set_open_ws ?f st) w) with (containers_get st w) in Hgoc.
  rewrite Hget in Hgoc. injection Hgoc as <- <-.
  unfold containers_get in Hget.
  destruct (containers st !! w) as [r'|] eqn:Hreg; [|done].
  destruct (objects st !! r') as [c'|] eqn:Hobj; [|done]. injection Hget as -> ->.
  unfold on_close, containers_get. state_simpl.
  rewrite Hreg, lookup_alter_eq, Hobj. cbn [fmap option_fmap option_map].
  cbn [clients set_clients]. rewrite set_delete_add by done.
  assert (Hback : alter (set_clients (set_delete ws)) r
                    (alter (set_clients (set_add ws)) r (objects st)) !! r = Some c).
  { rewrite !lookup_alter_eq, Hobj. cbn. by rewrite set_clients_restore. }
  destruct (clients c); state_simpl; by rewrite Hreg, Hback.
Qed.

Lemma connect_then_close_restores_witness :
  exists st1,
    on_connection 3 (Some "w") two_sessions = Attached st1
    /\ containers_get (on_close 3 "w" st1) "w"
       = Some (0, {| id := "w"; dir := "/data/w"; clients := [1]; files := ∅;
                     processes := ∅ |})
    /\ timers (on_close 3 "w" st1) = timers two_sessions.
Proof.
  eexists. split; [vm_compute; reflexivity|].
  apply (connect_then_close_restores 3 "w" two_sessions _ 0
           {| id := "w"; dir := "/data/w"; clients := [1]; files := ∅; processes := ∅ |}).
  - vm_compute. reflexivity.
  - apply not_elem_of_cons. split; [done|apply not_elem_of_nil].
  - vm_compute. reflexivity.
Defined.

(** X12.  Once a socket is attached, an idle timer of that workspace that
    fires finds a client and does nothing: a timer armed by an earlier
    close does not take the session away from who came back in time. *)
Theorem attached_session_survives_timer (ws : nat) (w : string) (st st1 : State) :
  on_connection ws (Some w) st = Attached st1 ->
  on_idle_timeout w st1 = st1.
Proof.
  intros (_ & r & c & Hget & Hin)%attached_after_connection.
  unfold on_idle_timeout. rewrite Hget. destruct (clients c); [|done].
  by apply elem_of_nil in Hin.
Qed.

Lemma attached_session_survives_timer_witness :
  exists st1,
    on_connection 2 (Some "w")
      (on_close 1 "w" shell_state) = Attached st1
    /\ timers st1 = ["w"]
    /\ on_idle_timeout "w" st1 = st1.
Proof.
  eexists. split; [vm_compute; reflexivity|]. split; [vm_compute; reflexivity|].
  apply (attached_session_survives_timer 2 "w" (on_close 1 "w" shell_state)).
  vm_compute. reflexivity.
Defined.

(** X13.  A client that comes after the sweep gets a new container object:
    empty cache, no processes, itself the only client.  The object that
    was swept is still there, unchanged, for the closures that hold it. *)
Theorem reattach_after_sweep_is_fresh (ws : nat) (w : string) (st st' : State)
        (r : nat) (c : Container) :
  registry_ok st ->
  containers_get st w = Some (r, c) ->
  clients c = [] ->
  on_connection ws (Some w) (on_idle_timeout w st) = Attached st' ->
  containers_get st' w
  = Some (next_ref st, {| id := w; dir := path.join data_root w; clients := [ws];
                          files := ∅; processes := ∅ |})
  /\ objects st' !! r = Some c
  /\ r <> next_ref st.
Proof.
  intros [_ Hfresh] Hget Hnone. unfold on_idle_timeout. rewrite Hget, Hnone.
  intros (r0 & st0 & Hgoc & ->)%on_connection_Attached.
  assert (Hobj : objects st !! r = Some c).
  { unfold containers_get in Hget. destruct (containers st !! w); [|done].
    destruct (objects st !! n) eqn:?; [|done]. by injection Hget as <- <-. }
  assert (Hne : r <> next_ref st).
  { intros ->. rewrite Hfresh in Hobj; done. }
  apply get_or_create_cases in Hgoc as [[_ (c0 & Hc0)]|(_ & -> & d & ->)].
  { unfold containers_get in Hc0. state_simpl. cbn in Hc0.
    by rewrite lookup_delete_eq in Hc0. }
  unfold containers_get. state_simpl.
  rewrite lookup_insert_eq, lookup_alter_eq, lookup_insert_eq.
  split; [done|]. split; [|done].
  by rewrite lookup_alter_ne, lookup_insert_ne.
Qed.

Lemma reattach_after_sweep_is_fresh_witness :
  exists st',
    on_connection 2 (Some "w") (on_idle_timeout "w" (on_close 1 "w" shell_state))
    = Attached st'
    /\ containers_get st' "w"
       = Some (1, {| id := "w"; dir := path.join data_root "w"; clients := [2];
                     files := ∅; processes := ∅ |})
    /\ objects st' !! 0
       = Some {| id := "w"; dir := "/data/w"; clients := []; files := ∅;
                 processes := {[ "p1" := shell ]} |}
    /\ 0 <> 1.
Proof.
  eexists. split; [vm_compute; reflexivity|].
  apply (reattach_after_sweep_is_fresh 2 "w" (on_close 1 "w" shell_state) _ 0).
  - apply (run_registry_ok [ws_connect 1 "w";
                             http_execute "w" "/bin/bash" [] "/" None "p1";
                             ws_close 1 "w"] (initial ∅));
      [apply registry_ok_initial|repeat constructor|vm_compute; reflexivity].
  - vm_compute. reflexivity.
  - reflexivity.
  - vm_compute. reflexivity.
Defined.

(** X14.  Once the session of a child is out of the registry, nothing the
    child emits reaches anybody, and the registry stays as it is. *)
Theorem orphaned_child_events_dropped (p : ChildProcess) (ev : ChildEvent)
        (st st' : State) :
  containers st !! owner_previewId p = None ->
  emit p ev st = Some st' ->
  sent st' = sent st /\ containers st' = containers st.
Proof.
  intros Hgone. unfold emit, listeners.
  assert (Hb : forall data s, containers s = containers st ->
                 broadcastToContainer (owner_previewId p) data s = s).
  { intros data s Hs. unfold broadcastToContainer, containers_get. by rewrite Hs, Hgone. }
  destruct ev as [code|name|stream data|error out err], (launch p);
    try discriminate; intros [= <-]; cbn [fold_left];
    unfold on_exit, exec_callback, tail_on_data, branch_on_data;
    rewrite ?Hb by (rewrite ?Hb; done); done.
Qed.

Lemma orphaned_child_events_dropped_witness :
  exists st',
    emit shell (child_data stdout "late output") orphan_state = Some st'
    /\ sent st' = sent orphan_state /\ containers st' = containers orphan_state.
Proof.
  eexists. split; [reflexivity|].
  apply (orphaned_child_events_dropped shell (child_data stdout "late output") orphan_state).
  - vm_compute. reflexivity.
  - reflexivity.
Defined.

Section Registry.

Lemma emit_containers (p : ChildProcess) (ev : ChildEvent) (st st' : State) :
  emit p ev st = Some st' -> containers st' = containers st.
Proof.
  unfold emit, listeners.
  destruct ev as [code|name|stream data|error out err], (launch p);
    try discriminate; intros [= <-]; cbn [fold_left];
    unfold on_exit, exec_callback, branch_on_data, tail_on_data;
    repeat match goal with
      | |- context [broadcastToContainer ?w ?d ?s] =>
          destruct (broadcast_frame w d s) as (-> & _)
      end; done.
Qed.

End Registry.

(** X15.  The registry changes in two ways only: a callback registers a new
    object for its own workspace, which had none; or the idle timer
    drops a session without clients.  No other callback removes or
    replaces an entry. *)
Theorem registry_changes_by_create_or_sweep (op : Op) (st st' : State) :
  step op st = Some st' ->
  containers st' = containers st
  \/ (containers_get st (workspace_of op) = None
      /\ containers st' = <[workspace_of op := next_ref st]> (containers st))
  \/ (op = idle_timeout (workspace_of op)
      /\ (exists r c, containers_get st (workspace_of op) = Some (r, c)
                      /\ clients c = [])
      /\ containers st' = delete (workspace_of op) (containers st)).
Proof.
  destruct op as [ws w|ws w parsed|ws w|ws w message|w|w filePath content
                 |w dirPath recursive|w filePath recursive|w filePath
                 |w command args cwd terminal newId|p ev];
    cbn [step workspace_of].
  - unfold on_connection. destruct (String.eqb w ""); [intros [= <-]; by left|].
    destruct (get_or_create w _) as [[r st1]|] eqn:Hgoc; [|done].
    destruct (ws_send ws _ _) as [st3|] eqn:Hsend; [|done].
    apply ws_send_Some in Hsend as [-> _]. intros [= <-]. state_simpl.
    apply get_or_create_cases in Hgoc as [[-> _]|(Hnone & -> & d & ->)];
      [by left|right; left; done].
  - intros [= <-]. left. apply on_message_frame.
  - intros [= <-]. left. unfold on_close.
    destruct (containers_get _ w) as [[r c]|]; [|done].
    by destruct (set_delete ws (clients c)).
  - intros [= <-]. left. unfold on_error. by destruct (decide _).
  - intros [= <-]. unfold on_idle_timeout.
    destruct (containers_get st w) as [[r c]|] eqn:Hget; [|by left].
    destruct (clients c) eqn:Hc; [|by left].
    right; right. split; [done|]. split; [by exists r, c|done].
  - intros [= <-]. unfold files_write.
    destruct content as [content|]; [|by left].
    destruct (String.eqb filePath ""); [by left|].
    destruct (get_or_create w st) as [[r st1]|] eqn:Hgoc; [|by left].
    assert (containers st1 = containers st
            \/ containers_get st w = None
               /\ containers st1 = <[w := next_ref st]> (containers st)) as Hst1.
    { apply get_or_create_cases in Hgoc as [[-> _]|(Hnone & -> & d & ->)];
        [by left|by right]. }
    destruct (objects st1 !! r) as [c|]; [|(destruct Hst1 as [Hst1|[Hnone Hst1]]; [left|right; left]; done)].
    destruct (fs.mkdirSync (disk st1) _ true) as [d2|]; [|(destruct Hst1 as [Hst1|[Hnone Hst1]]; [left|right; left]; done)].
    destruct (fs.writeFileSync d2 _ _) as [d3|]; [|(destruct Hst1 as [Hst1|[Hnone Hst1]]; [left|right; left]; done)]. cbn [fst].
    destruct (broadcast_frame w (file_change w filePath)
                (set_objects (alter (set_files (insert filePath content)) r)
                   (set_disk d3 (set_disk d2 st1)))) as (-> & _).
    (destruct Hst1 as [Hst1|[Hnone Hst1]]; [left|right; left]; done).
  - intros [= <-]. unfold files_mkdir.
    destruct (String.eqb dirPath ""); [by left|].
    destruct (get_or_create w st) as [[r st1]|] eqn:Hgoc; [|by left].
    assert (containers st1 = containers st
            \/ containers_get st w = None
               /\ containers st1 = <[w := next_ref st]> (containers st)) as Hst1.
    { apply get_or_create_cases in Hgoc as [[-> _]|(Hnone & -> & d & ->)];
        [by left|by right]. }
    destruct (objects st1 !! r) as [c|]; [|(destruct Hst1 as [Hst1|[Hnone Hst1]]; [left|right; left]; done)].
    destruct (fs.mkdirSync (disk st1) _ _) as [d2|]; (destruct Hst1 as [Hst1|[Hnone Hst1]]; [left|right; left]; done).
  - intros [= <-]. left. unfold files_rm.
    destruct (String.eqb filePath ""); [done|].
    destruct (containers_get st w) as [[r c]|]; [|done]. cbv zeta.
    destruct (negb (fs.existsSync _ _)); [done|].
    match goal with
    | |- context [match ?x with Some _ => _ | None => _ end] => destruct x as [d|]
    end; [|done]. cbn [fst].
    match goal with
    | |- context [broadcastToContainer ?w ?d ?s] =>
        destruct (broadcast_frame w d s) as (-> & _)
    end. done.
  - intros [= <-]. left. unfold files_read.
    destruct (String.eqb filePath ""); [done|].
    destruct (containers_get st w) as [[r c]|]; [|done].
    destruct (files c !! filePath); [done|]. cbv zeta.
    destruct (fs.existsSync _ _); [|done].
    by destruct (fs.readFileSync _ _).
  - intros [= <-]. unfold execute.
    destruct (String.eqb command ""); [by left|].
    destruct (get_or_create w st) as [[r st1]|] eqn:Hgoc; [|by left].
    assert (containers st1 = containers st
            \/ containers_get st w = None
               /\ containers st1 = <[w := next_ref st]> (containers st)) as Hst1.
    { apply get_or_create_cases in Hgoc as [[-> _]|(Hnone & -> & d & ->)];
        [by left|by right]. }
    destruct (objects st1 !! r) as [c|]; [|(destruct Hst1 as [Hst1|[Hnone Hst1]]; [left|right; left]; done)].
    destruct (fs.mkdirSync (disk st1) _ true) as [d2|]; [|(destruct Hst1 as [Hst1|[Hnone Hst1]]; [left|right; left]; done)]. cbv zeta.
    destruct (exec_env terminal _) as [e|]; (destruct Hst1 as [Hst1|[Hnone Hst1]]; [left|right; left]; done).
  - intros H%emit_containers. by left.
Qed.

Lemma registry_changes_by_create_or_sweep_witness :
  containers (on_idle_timeout "w" written_state) = delete "w" (containers written_state).
Proof.
  destruct (registry_changes_by_create_or_sweep (idle_timeout "w") written_state
              (on_idle_timeout "w" written_state) eq_refl)
    as [H|[[H _]|(_ & _ & H)]].
  - vm_compute in H. discriminate.
  - vm_compute in H. discriminate.
  - exact H.
Defined.

Section Objects.

Variable P : Container -> Prop.
Hypothesis P_fresh : forall w, P {| id := w; dir := path.join data_root w; clients := [];
                                    files := ∅; processes := ∅ |}.
Hypothesis P_add : forall ws c, P c -> P (set_clients (set_add ws) c).
Hypothesis P_delete : forall ws c, P c -> P (set_clients (set_delete ws) c).
Hypothesis P_files : forall f c, P c -> P (set_files f c).
Hypothesis P_processes : forall f c, P c -> P (set_processes f c).

Lemma every_alter (f : Container -> Container) (r : nat) (st : State) :
  (forall c, P c -> P (f c)) ->
  every_container P st -> every_container P (set_objects (alter f r) st).
Proof.
  intros Hf H r' c'. state_simpl. destruct (decide (r' = r)) as [->|Hne].
  - rewrite lookup_alter_eq. destruct (objects st !! r) as [c|] eqn:Hc; [|done].
    intros [= <-]. eauto.
  - rewrite lookup_alter_ne by done. apply H.
Qed.

Lemma every_get_or_create (w : string) (st st1 : State) (r : nat) :
  get_or_create w st = Some (r, st1) ->
  every_container P st -> every_container P st1.
Proof.
  intros [[-> _]|(_ & -> & d & ->)]%get_or_create_cases H; [done|].
  intros r' c'. cbn [objects]. destruct (decide (r' = next_ref st)) as [->|Hne].
  - rewrite lookup_insert_eq. intros [= <-]. apply P_fresh.
  - rewrite lookup_insert_ne by done. apply H.
Qed.

Lemma every_broadcast (w : string) (data : Event) (st : State) :
  every_container P st -> every_container P (broadcastToContainer w data st).
Proof.
  unfold every_container. by destruct (broadcast_frame w data st) as (_ & -> & _).
Qed.

Lemma every_emit (p : ChildProcess) (ev : ChildEvent) (st st' : State) :
  emit p ev st = Some st' -> every_container P st -> every_container P st'.
Proof.
  unfold emit, listeners.
  destruct ev as [code|name|stream data|error out err], (launch p);
    try discriminate; intros [= <-] H; cbn [fold_left];
    unfold on_exit, exec_callback, branch_on_data, tail_on_data;
    repeat apply every_broadcast; try done; apply every_alter; auto.
Qed.

Lemma every_step (op : Op) (st st' : State) :
  step op st = Some st' -> every_container P st -> every_container P st'.
Proof.
  destruct op as [ws w|ws w parsed|ws w|ws w message|w|w filePath content
                 |w dirPath recursive|w filePath recursive|w filePath
                 |w command args cwd terminal newId|p ev];
    cbn [step]; intros Hstep H.
  - revert Hstep. unfold on_connection.
    destruct (String.eqb w ""); [by intros [= <-]|].
    destruct (get_or_create w _) as [[r st1]|] eqn:Hgoc; [|done].
    destruct (ws_send ws _ _) as [st3|] eqn:Hsend; [|done].
    apply ws_send_Some in Hsend as [-> _]. intros [= <-].
    apply (every_alter (set_clients (set_add ws)) r st1); [apply P_add|].
    exact (every_get_or_create _ _ _ _ Hgoc H).
  - injection Hstep as <-. unfold every_container.
    by destruct (on_message_frame ws w parsed st) as (_ & -> & _).
  - injection Hstep as <-. unfold on_close.
    destruct (containers_get _ w) as [[r c]|]; [|done].
    assert (every_container P
              (set_objects (alter (set_clients (set_delete ws)) r)
                 (set_open_ws (fun s => s ∖ {[ws]}) st))) as H'.
    { apply every_alter; [apply P_delete|exact H]. }
    destruct (set_delete ws (clients c)); exact H'.
  - injection Hstep as <-. unfold on_error. by destruct (decide _).
  - injection Hstep as <-. unfold on_idle_timeout.
    destruct (containers_get st w) as [[r c]|]; [|done]. by destruct (clients c).
  - injection Hstep as <-. unfold files_write.
    destruct content as [content|]; [|done].
    destruct (String.eqb filePath ""); [done|].
    destruct (get_or_create w st) as [[r st1]|] eqn:Hgoc; [|done].
    apply (every_get_or_create _ _ _ _ Hgoc) in H.
    destruct (objects st1 !! r) as [c|]; [|done].
    destruct (fs.mkdirSync (disk st1) _ true) as [d2|]; [|done].
    destruct (fs.writeFileSync d2 _ _) as [d3|]; [|done]. cbn [fst].
    apply every_broadcast.
    apply (every_alter _ r (set_disk d3 (set_disk d2 st1))); [apply P_files|exact H].
  - injection Hstep as <-. unfold files_mkdir.
    destruct (String.eqb dirPath ""); [done|].
    destruct (get_or_create w st) as [[r st1]|] eqn:Hgoc; [|done].
    apply (every_get_or_create _ _ _ _ Hgoc) in H.
    destruct (objects st1 !! r) as [c|]; [|done].
    by destruct (fs.mkdirSync (disk st1) _ _) as [d2|].
  - injection Hstep as <-. unfold files_rm.
    destruct (String.eqb filePath ""); [done|].
    destruct (containers_get st w) as [[r c]|]; [|done]. cbv zeta.
    destruct (negb (fs.existsSync _ _)); [done|].
    match goal with
    | |- context [match ?x with Some _ => _ | None => _ end] => destruct x as [d|]
    end; [|done]. cbn [fst].
    apply every_broadcast.
    apply (every_alter _ r (set_disk d st)); [apply P_files|exact H].
  - injection Hstep as <-. unfold files_read.
    destruct (String.eqb filePath ""); [done|].
    destruct (containers_get st w) as [[r c]|]; [|done].
    destruct (files c !! filePath); [done|]. cbv zeta.
    destruct (fs.existsSync _ _); [|done].
    destruct (fs.readFileSync _ _); [|done]. cbn [fst].
    apply every_alter; [apply P_files|exact H].
  - injection Hstep as <-. unfold execute.
    destruct (String.eqb command ""); [done|].
    destruct (get_or_create w st) as [[r st1]|] eqn:Hgoc; [|done].
    apply (every_get_or_create _ _ _ _ Hgoc) in H.
    destruct (objects st1 !! r) as [c|]; [|done].
    destruct (fs.mkdirSync (disk st1) _ true) as [d2|]; [|done]. cbv zeta.
    destruct (exec_env terminal _) as [e|]; [|done]. cbn [fst].
    apply (every_alter _ r (set_disk d2 st1)); [apply P_processes|exact H].
  - by apply (every_emit p ev st).
Qed.

Lemma every_run (ops : list Op) (st st' : State) :
  run ops st = Some st' -> every_container P st -> every_container P st'.
Proof.
  revert st. induction ops as [|op ops IH]; intros st; cbn [run].
  - by intros [= <-].
  - destruct (step op st) as [st1|] eqn:Hstep; [|done].
    intros Hrun H. eapply IH; [exact Hrun|]. by eapply every_step.
Qed.

End Objects.

Section Sets.

Lemma set_add_NoDup (ws : nat) (l : list nat) : NoDup l -> NoDup (set_add ws l).
Proof.
  intros H. unfold set_add. destruct (decide _) as [|Hnot]; [done|].
  apply NoDup_app. split; [done|]. split; [|apply NoDup_singleton].
  intros x Hx ->%list_elem_of_singleton. done.
Qed.

Lemma clients_NoDup (ops : list Op) (e : gmap string string) (st : State) :
  run ops (initial e) = Some st ->
  every_container (fun c => NoDup (clients c)) st.
Proof.
  intros Hrun. eapply every_run; [..|exact Hrun|].
  - intros w. apply NoDup_nil_2.
  - intros ws c. apply set_add_NoDup.
  - intros ws c H. cbn. by apply NoDup_filter.
  - done.
  - done.
  - intros r c. cbn. by rewrite lookup_empty.
Qed.

End Sets.

(** X16.  In every state the server can reach, a broadcast gives each client
    of the workspace whose socket is open exactly one copy of the event,
    and nobody else anything. *)
Theorem broadcast_reaches_open_clients_once (ops : list Op) (e : gmap string string)
        (w : string) (data : Event) (st : State) (r : nat) (c : Container) :
  run ops (initial e) = Some st ->
  containers_get st w = Some (r, c) ->
  exists msgs,
    broadcastToContainer w data st = push_sent msgs st
    /\ (forall ws, ws ∈ clients c -> ws ∈ open_ws st -> deliveries ws msgs = 1)
    /\ (forall ws, ws ∉ clients c \/ ws ∉ open_ws st -> deliveries ws msgs = 0)
    /\ (forall ws ev, (ws, ev) ∈ msgs -> ev = data).
Proof.
  intros Hrun Hget. apply (broadcast_deliveries w data st r c Hget).
  apply containers_get_Some in Hget as [_ Hobj].
  exact (clients_NoDup ops e st Hrun r c Hobj).
Qed.

Lemma broadcast_reaches_open_clients_once_witness :
  exists msgs,
    broadcastToContainer "w" (refresh_preview "w") two_sessions
    = push_sent msgs two_sessions
    /\ (forall ws, ws ∈ [1] -> ws ∈ open_ws two_sessions -> deliveries ws msgs = 1)
    /\ (forall ws, ws ∉ [1] \/ ws ∉ open_ws two_sessions -> deliveries ws msgs = 0)
    /\ (forall ws ev, (ws, ev) ∈ msgs -> ev = refresh_preview "w").
Proof.
  apply (broadcast_reaches_open_clients_once [ws_connect 1 "w"; ws_connect 2 "v"] ∅
           "w" (refresh_preview "w") two_sessions 0
           {| id := "w"; dir := "/data/w"; clients := [1]; files := ∅; processes := ∅ |}).
  - vm_compute. reflexivity.
  - vm_compute. reflexivity.
Defined.

Section Execute.

(** How a start that succeeded went. *)
Lemma execute_started (w cmd : string) (arguments : list string) (dir0 : string)
      (terminal : option json) (newId : string) (st st' : State)
      (answer : Response) (p : ChildProcess) :
  execute w cmd arguments dir0 terminal newId st = (st', answer, Some p) ->
  exists r st1 c d e,
    get_or_create w st = Some (r, st1)
    /\ objects st1 !! r = Some c
    /\ fs.mkdirSync (disk st1) (path.join (dir c) dir0) true = Some d
    /\ exec_env terminal (set_disk d st1) = Some e
    /\ answer = started newId
    /\ st' = set_objects (alter (set_processes (insert newId p)) r) (set_disk d st1)
    /\ owner p = r /\ owner_previewId p = w /\ processId p = newId
    /\ cwd p = path.join (dir c) dir0 /\ child_env p = e
    /\ p = (if String.eqb (if String.eqb cmd "/bin/jsh" then "/bin/bash" else cmd) "/bin/bash"
            then {| launch := Spawned;
                    command := if String.eqb cmd "/bin/jsh" then "/bin/bash" else cmd;
                    args := if String.eqb cmd "/bin/jsh"
                            then filter (fun arg => arg <> "--osc") arguments
                            else arguments;
                    cwd := path.join (dir c) dir0; child_env := e; owner := r;
                    owner_previewId := w; processId := newId |}
            else {| launch := Execed;
                    command := (if String.eqb cmd "/bin/jsh" then "/bin/bash" else cmd)
                               +:+ " " +:+
                               join_space (if String.eqb cmd "/bin/jsh"
                                           then filter (fun arg => arg <> "--osc") arguments
                                           else arguments);
                    args := []; cwd := path.join (dir c) dir0; child_env := e;
                    owner := r; owner_previewId := w; processId := newId |}).
Proof.
  unfold execute. destruct (String.eqb cmd ""); [done|].
  destruct (get_or_create w st) as [[r st1]|] eqn:Hgoc; [|done].
  destruct (objects st1 !! r) as [c|] eqn:Hobj; [|done].
  destruct (fs.mkdirSync (disk st1) _ true) as [d|] eqn:Hmk; [|done]. cbv zeta.
  destruct (exec_env terminal _) as [e|] eqn:He; [|done].
  intros [= <- <- <-]. exists r, st1, c, d, e.
  repeat (split; [done|]).
  destruct (String.eqb (if String.eqb cmd "/bin/jsh" then "/bin/bash" else cmd) "/bin/bash");
    done.
Qed.

(** Where the handle of a started child is, and which children are
    shells. *)
Lemma execute_started_get (w cmd : string) (arguments : list string) (dir0 : string)
      (terminal : option json) (newId : string) (st st' : State)
      (answer : Response) (p : ChildProcess) :
  execute w cmd arguments dir0 terminal newId st = (st', answer, Some p) ->
  (exists r c, containers_get st' w = Some (r, c) /\ processes c !! newId = Some p)
  /\ launch p = (if String.eqb cmd "/bin/bash" || String.eqb cmd "/bin/jsh"
                 then Spawned else Execed)
  /\ env st' = env st
  /\ exists s, env s = env st /\ exec_env terminal s = Some (child_env p).
Proof.
  intros (r & st1 & c & d & e & Hgoc & Hobj & Hmk & He & -> & -> & _ & _ & _ & _ & Henv & Hp)
    %execute_started.
  destruct (get_or_create_registered _ _ _ _ Hgoc) as (Hreg & _).
  destruct (get_or_create_sent _ _ _ _ Hgoc) as (_ & _ & Hsame).
  split; [|split; [|split]].
  - exists r, (set_processes (insert newId p) c). unfold containers_get. state_simpl.
    rewrite Hreg, lookup_alter_eq, Hobj. split; [done|]. cbn. apply lookup_insert_eq.
  - rewrite Hp. destruct (String.eqb_spec cmd "/bin/jsh") as [->|_]; [done|].
    rewrite orb_false_r. by destruct (String.eqb cmd "/bin/bash").
  - done.
  - exists (set_disk d st1). by rewrite Henv.
Qed.

End Execute.

(** X17.  A start that succeeded answers the new process id, tells no client,
    and leaves the handle in the processes of the registered session,
    its closure holding that same object; the working directory exists. *)
Theorem execute_registers_handle (w cmd : string) (arguments : list string)
        (dir0 : string) (terminal : option json) (newId : string) (st st' : State)
        (answer : Response) (p : ChildProcess) :
  execute w cmd arguments dir0 terminal newId st = (st', answer, Some p) ->
  answer = started newId
  /\ sent st' = sent st
  /\ exists r c,
      containers_get st' w = Some (r, c)
      /\ processes c !! newId = Some p
      /\ owner p = r
      /\ cwd p = path.join (dir c) dir0
      /\ fs.isDirectory (disk st') (cwd p) = Some true.
Proof.
  intros (r & st1 & c & d & e & Hgoc & Hobj & Hmk & He & -> & -> & Ho & Hw & Hid & Hcwd & _)
    %execute_started.
  destruct (get_or_create_registered _ _ _ _ Hgoc) as (Hreg & _).
  destruct (get_or_create_sent _ _ _ _ Hgoc) as (Hsent & _).
  split; [done|]. split; [done|].
  exists r, (set_processes (insert newId p) c). unfold containers_get. state_simpl.
  rewrite Hreg, lookup_alter_eq, Hobj. split; [done|].
  split; [cbn; apply lookup_insert_eq|]. split; [done|]. split; [done|].
  rewrite Hcwd. unfold fs.isDirectory.
  unfold fs.mkdirSync in Hmk. by rewrite (mkdirp_resolve _ _ _ Hmk).
Qed.

Lemma execute_registers_handle_witness :
  started "p1" = started "p1"
  /\ sent shell_state = sent connected_state
  /\ exists r c,
      containers_get shell_state "w" = Some (r, c)
      /\ processes c !! "p1" = Some shell
      /\ owner shell = r
      /\ cwd shell = path.join (dir c) "/"
      /\ fs.isDirectory (disk shell_state) (cwd shell) = Some true.
Proof.
  apply (execute_registers_handle "w" "/bin/bash" [] "/" None "p1" connected_state).
  vm_compute. reflexivity.
Defined.


Section Terminal.

Lemma type_dispatch (ws : nat) (w : string) (data : json) (tag : string) (st : State)
      (r : nat) (c : Container) :
  js.prop data "type" = Some (Some (JStr tag)) ->
  tag <> "" ->
  containers_get st w = Some (r, c) ->
  on_message ws w (Some data) st
  = if String.eqb tag "file-change" then
      broadcastToContainer w (refresh_preview w) st
    else if String.eqb tag "preview-ready" then
      broadcastToContainer w (preview_ready w ("/preview/" +:+ w)) st
    else if String.eqb tag "terminal-input" then terminal_input c data st
    else if String.eqb tag "terminal-resize" then terminal_resize c data st
    else st.
Proof.
  intros Htype Htag Hget. unfold on_message. rewrite Htype, Hget. cbn [js.truthy js.is_str].
  destruct (String.eqb_spec tag ""); done.
Qed.

Lemma broadcast_is_push (w : string) (data : Event) (st : State) :
  exists msgs, broadcastToContainer w data st = push_sent msgs st.
Proof.
  unfold broadcastToContainer. destruct (containers_get st w) as [[r c]|]; [eauto|].
  exists []. by rewrite push_sent_nil.
Qed.

Lemma terminal_input_dispatch (ws : nat) (w pid input : string) (data : json)
        (st : State) (r : nat) (c : Container) :
  js.prop data "type" = Some (Some (JStr "terminal-input")) ->
  js.prop data "processId" = Some (Some (JStr pid)) ->
  js.prop data "input" = Some (Some (JStr input)) ->
  containers_get st w = Some (r, c) ->
  on_message ws w (Some data) st
  = if decide (pid <> "" /\ input <> "" /\ is_Some (processes c !! pid))
    then push_stdin pid input st
    else st.
Proof.
  intros Htype Hpid Hinput Hget.
  rewrite (type_dispatch ws w data "terminal-input" st r c Htype ltac:(done) Hget).
  cbn [String.eqb Ascii.eqb Bool.eqb]. unfold terminal_input.
  rewrite Hpid, Hinput. cbn [js.truthy has_stdin].
  destruct (String.eqb_spec pid ""), (String.eqb_spec input "");
    cbn [negb orb]; try (rewrite decide_False by tauto; done).
  destruct (processes c !! pid) as [p|] eqn:Hp.
  - rewrite decide_True; [done|]. repeat split; [done..|by eexists].
  - rewrite decide_False; [done|]. intros (_ & _ & [? ?]). done.
Qed.



Lemma exec_env_ext (terminal : option json) (s s' : State) :
  env s = env s' -> exec_env terminal s = exec_env terminal s'.
Proof. unfold exec_env. by intros ->. Qed.

End Terminal.


(** X18.  What a client types goes to the standard input of the process it
    names, once that process was started in its workspace, be it a shell
    or an exec'ed command. *)
Theorem started_process_receives_input (ws : nat) (w cmd : string)
        (arguments : list string) (dir0 : string) (terminal : option json)
        (newId input : string) (data : json) (st st' : State) (answer : Response)
        (p : ChildProcess) :
  execute w cmd arguments dir0 terminal newId st = (st', answer, Some p) ->
  newId <> "" -> input <> "" ->
  js.prop data "type" = Some (Some (JStr "terminal-input")) ->
  js.prop data "processId" = Some (Some (JStr newId)) ->
  js.prop data "input" = Some (Some (JStr input)) ->
  on_message ws w (Some data) st' = push_stdin newId input st'.
Proof.
  intros ((r & c & Hget & Hp) & _)%execute_started_get Hid Hinput Htype Hpid Hin.
  rewrite (terminal_input_dispatch ws w newId input data st' r c Htype Hpid Hin Hget).
  rewrite decide_True; [done|]. by rewrite Hp.
Qed.

Lemma started_process_receives_input_witness :
  on_message 1 "w" (Some input_message) shell_state = push_stdin "p1" "ls" shell_state.
Proof.
  apply (started_process_receives_input 1 "w" "/bin/bash" [] "/" None "p1" "ls"
           input_message connected_state shell_state (started "p1") shell).
  - vm_compute. reflexivity.
  - done.
  - done.
  - reflexivity.
  - reflexivity.
  - reflexivity.
Defined.





(** X21.  After the exit of a shell, or the completion of an exec'ed command,
    input and resize messages for that process id change nothing. *)
Theorem finished_process_ignores_terminal (p : ChildProcess) (ev : ChildEvent)
        (ws : nat) (data : json) (tag : string) (st st' : State) (c : Container) :
  completes p ev = true ->
  containers_get st (owner_previewId p) = Some (owner p, c) ->
  emit p ev st = Some st' ->
  js.prop data "type" = Some (Some (JStr tag)) ->
  tag = "terminal-input" \/ tag = "terminal-resize" ->
  js.prop data "processId" = Some (Some (JStr (processId p))) ->
  on_message ws (owner_previewId p) (Some data) st' = st'.
Proof.
  intros Hev Hreg Hemit Htype Htag Hpid.
  assert (exists msgs, st' = push_sent msgs
            (set_objects (alter (set_processes (delete (processId p))) (owner p)) st))
    as [msgs ->].
  { revert Hemit Hev. unfold emit, listeners, completes.
    destruct ev as [code|name|stream data'|error out err], (launch p);
      try discriminate; intros [= <-] _; cbn [fold_left];
      unfold on_exit, exec_callback; apply broadcast_is_push. }
  apply containers_get_Some in Hreg as [Hreg Hc].
  assert (containers_get
            (push_sent msgs
               (set_objects (alter (set_processes (delete (processId p))) (owner p)) st))
            (owner_previewId p)
          = Some (owner p, set_processes (delete (processId p)) c)) as Hget.
  { unfold containers_get. state_simpl. by rewrite Hreg, lookup_alter_eq, Hc. }
  assert (processes (set_processes (delete (processId p)) c) !! processId p = None)
    as Hgone by (cbn; apply lookup_delete_eq).
  rewrite (type_dispatch ws _ data tag _ _ _ Htype ltac:(by destruct Htag as [->| ->]) Hget).
  destruct Htag as [-> | ->]; cbn [String.eqb Ascii.eqb Bool.eqb].
  - unfold terminal_input. rewrite Hpid.
    destruct (js.prop data "input") as [input|]; [|done].
    destruct (negb _ || negb _); [done|]. by rewrite Hgone.
  - unfold terminal_resize. rewrite Hpid.
    destruct (js.prop data "cols") as [cols|]; [|done].
    destruct (js.prop data "rows") as [rows|]; [|done].
    destruct (negb _ || negb _ || negb _); [done|].
    destruct cols, rows; try done. by rewrite Hgone.
Qed.

Lemma finished_process_ignores_terminal_witness :
  exists st',
    emit shell (child_exit (Some 0%Z)) shell_state = Some st'
    /\ on_message 1 "w" (Some input_message) st' = st'.
Proof.
  eexists. split; [reflexivity|].
  apply (finished_process_ignores_terminal shell (child_exit (Some 0%Z)) 1 input_message
           "terminal-input" shell_state _
           {| id := "w"; dir := "/data/w"; clients := [1]; files := ∅;
              processes := {[ "p1" := shell ]} |}).
  - reflexivity.
  - vm_compute. reflexivity.
  - reflexivity.
  - reflexivity.
  - by left.
  - reflexivity.
Defined.


Section Copies.

Lemma reregister (newId : string) (p p0 : ChildProcess) (r : nat) (st : State) :
  set_objects (alter (set_processes (insert newId p0)) r)
    (set_objects (alter (set_processes (insert newId p)) r) st)
  = set_objects (alter (set_processes (insert newId p0)) r) st.
Proof.
  destruct st as [cs os n d e o s i t]. unfold set_objects. cbn. f_equal.
  apply map_eq. intros k. destruct (decide (k = r)) as [->|Hne].
  - rewrite !lookup_alter_eq. destruct (os !! r) as [c|]; [|done]. cbn.
    unfold set_processes. cbn. do 2 f_equal. apply insert_insert_eq.
  - by rewrite !lookup_alter_ne.
Qed.

End Copies.

(** X22.  server.js against the copy in part_000: whenever server.js starts a
    child, part_000 starts one with the same id, directory, environment
    and owner.  For every command but the three shells the children and
    the states are the same; [/bin/jsh] and [/bin/bash] are spawned by
    both, as [/bin/bash] here and as [/bin/sh] there; [/bin/sh] is
    exec'ed here and spawned there. *)
Theorem execute_copies_differ_on_shells (w cmd : string) (arguments : list string)
        (dir0 : string) (terminal : option json) (newId : string) (st st' : State)
        (answer : Response) (p : ChildProcess) :
  execute w cmd arguments dir0 terminal newId st = (st', answer, Some p) ->
  exists p0,
    execute_part000 w cmd arguments dir0 terminal newId st
    = (set_objects (alter (set_processes (insert newId p0)) (owner p)) st',
       answer, Some p0)
    /\ cwd p0 = cwd p /\ child_env p0 = child_env p /\ owner p0 = owner p
    /\ owner_previewId p0 = owner_previewId p /\ processId p0 = processId p
    /\ (cmd ∉ ["/bin/jsh"; "/bin/bash"; "/bin/sh"] -> p0 = p)
    /\ (cmd ∈ ["/bin/jsh"; "/bin/bash"] ->
        launch p = Spawned /\ command p = "/bin/bash"
        /\ launch p0 = Spawned /\ command p0 = "/bin/sh" /\ args p0 = args p)
    /\ (cmd = "/bin/jsh" -> args p = filter (fun arg => arg <> "--osc") arguments)
    /\ (cmd = "/bin/sh" ->
        launch p = Execed /\ command p = "/bin/sh " +:+ join_space arguments
        /\ launch p0 = Spawned /\ command p0 = "/bin/sh" /\ args p0 = arguments).
Proof.
  unfold execute, execute_part000.
  destruct (String.eqb cmd ""); [done|].
  destruct (get_or_create w st) as [[r st1]|]; [|done].
  destruct (objects st1 !! r) as [c|]; [|done].
  destruct (fs.mkdirSync (disk st1) _ true) as [d|]; [|done]. cbv zeta.
  destruct (exec_env terminal _) as [e|]; [|done].
  destruct (String.eqb_spec cmd "/bin/jsh") as [->|Hjsh];
    [|destruct (String.eqb_spec cmd "/bin/bash") as [->|Hbash];
      [|destruct (String.eqb_spec cmd "/bin/sh") as [->|Hsh]]];
    intros [= <- <- <-]; eexists; cbn [String.eqb Ascii.eqb Bool.eqb owner];
    rewrite reregister; (split; [reflexivity|]); cbn;
    repeat split; try done;
    try (intros Hno; exfalso; apply Hno; repeat constructor);
    try (intros Hin; repeat (apply elem_of_cons in Hin as [?|Hin]; [done|]);
         by apply elem_of_nil in Hin);
    try match goal with
      | Hin : _ ∈ _ |- _ =>
          repeat (apply elem_of_cons in Hin as [?|Hin]; [congruence|]);
          by apply elem_of_nil in Hin
      end.
Qed.

Lemma execute_copies_differ_on_shells_witness :
  exists st0 p0,
    execute_part000 "w" "/bin/bash" [] "/" None "p1" connected_state
    = (st0, started "p1", Some p0)
    /\ launch p0 = Spawned /\ command p0 = "/bin/sh" /\ command shell = "/bin/bash".
Proof.
  destruct (execute_copies_differ_on_shells "w" "/bin/bash" [] "/" None "p1"
              connected_state shell_state (started "p1") shell)
    as (p0 & Hrun & _ & _ & _ & _ & _ & _ & Hshell & _).
  { vm_compute. reflexivity. }
  destruct Hshell as (_ & Hcmd & Hlaunch & Hcmd0 & _).
  { apply elem_of_cons. right. apply elem_of_cons. by left. }
  eexists _, p0. split; [exact Hrun|]. done.
Defined.

(* ===================================================================== *)
(** ** Listings and the preview *)
(* ===================================================================== *)

Section Segments.

Lemma split_slash_cons (s : string) :
  exists seg segs, path.split_slash s = seg :: segs.
Proof.
  destruct s as [|c s]; [by eexists _, _|]. cbn [path.split_slash].
  destruct (Ascii.eqb c path.slash); [by eexists _, _|].
  destruct (path.split_slash s); by eexists _, _.
Qed.

(** Every ['/'] ends a segment. *)
Lemma split_slash_append (x y : string) :
  path.split_slash (x +:+ "/" +:+ y) = path.split_slash x ++ path.split_slash y.
Proof.
  induction x as [|c x IH].
  - reflexivity.
  - change (String c x +:+ "/" +:+ y) with (String c (x +:+ "/" +:+ y)).
    cbn [path.split_slash]. rewrite IH.
    destruct (Ascii.eqb c path.slash); [done|].
    by destruct (split_slash_cons x) as (seg & segs & ->).
Qed.

(** The segments [split_slash] returns hold no ['/']. *)
Lemma split_slash_segments (s : string) :
  Forall (fun seg => path.split_slash seg = [seg]) (path.split_slash s).
Proof.
  induction s as [|c s IH]; [by repeat constructor|].
  cbn [path.split_slash]. destruct (Ascii.eqb c path.slash) eqn:Hc.
  - by constructor.
  - destruct (path.split_slash s) as [|seg segs].
    + constructor; [|constructor]. cbn [path.split_slash]. by rewrite Hc.
    + apply Forall_cons in IH as [Hseg Hsegs]. constructor; [|done].
      cbn [path.split_slash]. by rewrite Hc, Hseg.
Qed.

(** A plain name goes on top of the stack of [normalizeString]. *)
Lemma normalize_segs_snoc (b : bool) (segs acc : list string) (name : string) :
  name <> "" -> name <> "." -> name <> ".." ->
  path.normalize_segs b acc (segs ++ [name]) = path.normalize_segs b acc segs ++ [name].
Proof.
  intros H1 H2 H3. revert acc. induction segs as [|seg rest IH]; intros acc.
  - cbn [app path.normalize_segs].
    destruct (String.eqb_spec name ""); [done|].
    destruct (String.eqb_spec name "."); [done|].
    by destruct (String.eqb_spec name "..").
  - cbn [app path.normalize_segs].
    destruct (String.eqb seg ""); [apply IH|].
    destruct (String.eqb seg "."); [apply IH|].
    destruct (String.eqb seg ".."); [|apply IH].
    destruct acc as [|top below]; [apply IH|].
    destruct (String.eqb top ".."); apply IH.
Qed.

(** A trailing ["."] changes nothing. *)
Lemma normalize_segs_dot (b : bool) (segs acc : list string) :
  path.normalize_segs b acc (segs ++ ["."]) = path.normalize_segs b acc segs.
Proof.
  revert acc. induction segs as [|seg rest IH]; intros acc; [done|].
  cbn [app path.normalize_segs].
  destruct (String.eqb seg ""); [apply IH|].
  destruct (String.eqb seg "."); [apply IH|].
  destruct (String.eqb seg ".."); [|apply IH].
  destruct acc as [|top below]; [apply IH|].
  destruct (String.eqb top ".."); apply IH.
Qed.

Lemma normalize_segs_clean (segs acc : list string) :
  Forall clean acc ->
  Forall (fun seg => path.split_slash seg = [seg]) segs ->
  Forall clean (path.normalize_segs false acc segs).
Proof.
  revert acc. induction segs as [|seg rest IH]; intros acc Hacc Hsegs.
  - cbn. by apply Forall_rev.
  - apply Forall_cons in Hsegs as [Hseg Hrest]. cbn [path.normalize_segs].
    destruct (String.eqb_spec seg ""); [by apply IH|].
    destruct (String.eqb seg "."); [by apply IH|].
    destruct (String.eqb seg "..").
    + destruct acc as [|top below]; [by apply IH|].
      apply Forall_cons in Hacc as [Htop Hbelow].
      destruct (String.eqb top ".."); apply IH; try done. by constructor.
    + apply IH; [|done]. by constructor.
Qed.

Lemma split_join_slash (seg : string) (segs : list string) :
  Forall clean (seg :: segs) ->
  path.split_slash (path.join_slash (seg :: segs)) = seg :: segs.
Proof.
  revert seg. induction segs as [|next rest IH]; intros seg H.
  - apply Forall_cons in H as [[H _] _]. exact H.
  - apply Forall_cons in H as [[H _] Hrest].
    change (path.join_slash (seg :: next :: rest))
      with (seg +:+ "/" +:+ path.join_slash (next :: rest)).
    by rewrite split_slash_append, H, IH.
Qed.

Lemma filter_clean (segs : list string) :
  Forall clean segs -> filter (fun seg => seg <> "") segs = segs.
Proof.
  induction 1 as [|seg segs [_ Hseg] _ IH]; [done|].
  rewrite filter_cons_True by done. by rewrite IH.
Qed.

Lemma segments_of_clean (segs : list string) (trailing : bool) :
  Forall clean segs -> segs <> [] ->
  path.segments ("/" +:+ (if trailing then path.join_slash segs +:+ "/"
                          else path.join_slash segs)) = segs.
Proof.
  intros H Hne. destruct segs as [|seg segs]; [done|]. unfold path.segments.
  change ("/" +:+ ?s) with (String "/" s). cbn [path.split_slash].
  change (Ascii.eqb "/" path.slash) with true. cbv iota.
  rewrite filter_cons_False by (intros Hn; by apply Hn).
  destruct trailing.
  - change (path.join_slash (seg :: segs) +:+ "/")
      with (path.join_slash (seg :: segs) +:+ "/" +:+ "").
    rewrite split_slash_append, split_join_slash by done.
    rewrite filter_app, filter_clean by done.
    change (path.split_slash "") with [""].
    rewrite filter_cons_False by (intros Hn; by apply Hn). by rewrite app_nil_r.
  - rewrite split_join_slash by done. by apply filter_clean.
Qed.

Lemma join_slash_empty (segs : list string) :
  Forall clean segs -> path.join_slash segs = "" -> segs = [].
Proof.
  intros H Hj. destruct segs as [|seg segs]; [done|]. exfalso.
  apply Forall_cons in H as [[_ Hseg] _].
  destruct seg as [|c seg]; [done|]. by destruct segs.
Qed.

(** The segments of a normalised absolute path are what is left on the
    stack. *)
Lemma segments_normalize (p : string) :
  path.is_absolute p = true ->
  path.segments (path.normalize p)
  = path.normalize_segs false [] (path.split_slash p).
Proof.
  intros Habs. unfold path.normalize.
  destruct (String.eqb_spec p "") as [->|_]; [done|]. rewrite Habs. cbv zeta.
  change (negb true) with false.
  pose proof (normalize_segs_clean (path.split_slash p) [] (Forall_nil_2 _)
                (split_slash_segments p)) as Hclean.
  destruct (String.eqb_spec (path.join_slash
              (path.normalize_segs false [] (path.split_slash p))) "") as [He|Hne].
  - by rewrite (join_slash_empty _ Hclean He).
  - apply (segments_of_clean _ (path.ends_with_slash p) Hclean).
    intros Hnil. apply Hne. by rewrite Hnil.
Qed.

Lemma is_absolute_append (a b : string) :
  path.is_absolute a = true -> path.is_absolute (a +:+ b) = true.
Proof. by destruct a. Qed.

Lemma segments_join (a b : string) :
  path.is_absolute a = true -> b <> "" ->
  path.segments (path.join a b)
  = path.normalize_segs false [] (path.split_slash a ++ path.split_slash b).
Proof.
  intros Ha Hb. unfold path.join.
  destruct (String.eqb_spec a "") as [->|_]; [done|].
  destruct (String.eqb_spec b ""); [done|].
  rewrite segments_normalize by by apply is_absolute_append.
  by rewrite split_slash_append.
Qed.

(** A plain name below a directory: one more segment. *)
Lemma segments_join_snoc (a b name : string) :
  path.is_absolute a = true -> b <> "" ->
  path.split_slash name = [name] ->
  name <> "" -> name <> "." -> name <> ".." ->
  path.segments (path.join a (b +:+ "/" +:+ name))
  = path.segments (path.join a b) ++ [name].
Proof.
  intros Ha Hb Hplain H1 H2 H3.
  rewrite !segments_join; [|done|done|done|by destruct b].
  by rewrite split_slash_append, Hplain, app_assoc, normalize_segs_snoc.
Qed.

Lemma is_absolute_normalize (p : string) :
  path.is_absolute p = true -> path.is_absolute (path.normalize p) = true.
Proof.
  intros Habs. unfold path.normalize.
  destruct (String.eqb_spec p "") as [->|_]; [done|]. rewrite Habs. cbv zeta.
  by destruct (String.eqb _ "").
Qed.

(** The directory of a registered container is an absolute path. *)
Lemma container_dir_absolute (st : State) (w : string) (r : nat) (c : Container) :
  registry_ok st -> containers_get st w = Some (r, c) ->
  path.is_absolute (dir c) = true.
Proof.
  intros [Hok _] [Hreg Hobj]%containers_get_Some.
  destruct (Hok _ _ Hreg) as (c' & Hc' & _ & Hdir).
  rewrite Hobj in Hc'. injection Hc' as <-. rewrite Hdir.
  unfold path.join, data_root. destruct (String.eqb w "").
  - reflexivity.
  - change (String.eqb "/data" "") with false. cbv iota.
    by apply is_absolute_normalize.
Qed.

End Segments.

Section Written.




Lemma child_of_snoc (segs : list string) (entry : string) :
  child_of segs (segs ++ [entry]) = Some entry.
Proof.
  unfold child_of. rewrite take_app_length, drop_app_length.
  by destruct (decide (segs = segs)).
Qed.

Lemma child_of_Some (segs k : list string) (entry : string) :
  child_of segs k = Some entry -> k = segs ++ [entry].
Proof.
  unfold child_of. destruct (decide _) as [Htake|]; [|done].
  destruct (drop (length segs) k) as [|x [|y l]] eqn:Hdrop; try done.
  intros [= ->]. by rewrite <- (take_drop (length segs) k), Htake, Hdrop.
Qed.

(** What [readdirSync] finds is what the disk holds right below the
    directory. *)
Lemma readdirSync_found (d : gmap (list string) fs.node) (p : string)
      (found : list (string * fs.node)) (entry : string) (node : fs.node) :
  readdirSync d p = Some found ->
  (entry, node) ∈ found <-> d !! (path.segments p ++ [entry]) = Some node.
Proof.
  unfold readdirSync. destruct (fs.resolve d p) as [[|]|]; try done.
  intros [= <-]. rewrite list_elem_of_omap. split.
  - intros ([k n] & Hin%elem_of_map_to_list & Hchild). cbn in Hchild.
    destruct (child_of (path.segments p) k) as [name0|] eqn:Hk; [|done].
    injection Hchild as -> ->. by apply child_of_Some in Hk as ->.
  - intros Hd. exists (path.segments p ++ [entry], node).
    split; [by apply elem_of_map_to_list|]. cbn. by rewrite child_of_snoc.
Qed.




End Written.


(** X24.  After a remove of [dirPath/entry] that succeeded, a readdir of
    [dirPath] does not list [entry] any more (or fails, when the
    directory itself is gone). *)
Theorem removed_entry_not_listed (w dirPath entry : string) (recursive withFileTypes : bool)
        (st st' : State) :
  registry_ok st ->
  dirPath <> "" ->
  path.split_slash entry = [entry] ->
  entry <> "" -> entry <> "." -> entry <> ".." ->
  files_rm w (dirPath +:+ "/" +:+ entry) recursive st = (st', success) ->
  match files_readdir w dirPath withFileTypes st' with
  | entries names => entry ∉ names
  | entries_with_types serializedEntries =>
      forall e, e ∈ serializedEntries -> name e <> entry
  | listing_failure status _ => status = 404 \/ status = 500
  end.
Proof.
  intros Hok Hdir Hplain H1 H2 H3 Hrm.
  destruct (files_rm_gone _ _ _ _ _ Hrm) as (r & c & Hget & Hget' & Hgone).
  pose proof (container_dir_absolute _ _ _ _ Hok Hget) as Habs.
  rewrite (segments_join_snoc (dir c) dirPath entry) in Hgone by done.
  unfold files_readdir. destruct (String.eqb_spec dirPath ""); [done|].
  rewrite Hget'. cbv zeta. cbn [dir set_files].
  destruct (negb (fs.existsSync _ _)); [by left|].
  destruct (readdirSync _ _) as [found|] eqn:Hread; [|by right].
  destruct withFileTypes.
  - intros e (x & -> & Hin)%list_elem_of_fmap Hname. destruct x as [nm node].
    assert (nm = entry) as -> by (by destruct node).
    apply (readdirSync_found _ _ _ _ _ Hread) in Hin. congruence.
  - intros (x & Hx & Hin)%list_elem_of_fmap. destruct x as [nm node]. cbn in Hx. subst nm.
    apply (readdirSync_found _ _ _ _ _ Hread) in Hin. congruence.
Qed.



Lemma removed_entry_not_listed_witness :
  exists st',
    files_rm "w" "a/b.txt" false tree_state = (st', success)
    /\ files_readdir "w" "a" false st' = entries ["c.txt"]
    /\ "b.txt" ∉ ["c.txt"].
Proof.
  eexists. split; [vm_compute; reflexivity|]. split; [vm_compute; reflexivity|].
  assert (Hok : registry_ok tree_state).
  { apply (run_registry_ok [http_write "w" "a/b.txt" (Some "x");
                            http_write "w" "a/c.txt" (Some "y");
                            http_write "w" "d.txt" (Some "z")] (initial ∅));
      [apply registry_ok_initial|repeat constructor|vm_compute; reflexivity]. }
  pose proof (removed_entry_not_listed "w" "a" "b.txt" false false tree_state _ Hok
                ltac:(done) eq_refl ltac:(done) ltac:(done) ltac:(done) eq_refl) as H.
  vm_compute in H. vm_compute. exact H.
Defined.


(* ===================================================================== *)
(** ** A shell that outlives its session, and starts that fail *)
(* ===================================================================== *)

(** X26.  A shell that outlives the sweep of its session: the client of the
    session made afterwards for the same workspace gets the output of the
    shell (twice, one copy per listener), while its input never reaches
    the shell, whose handle stayed in the object that was swept. *)
Theorem swept_shell_heard_not_reached (p : ChildProcess) (ws : nat) (w : string)
        (st st1 : State) (c : Container) (stream : Stream) (output : string)
        (data : json) :
  registry_ok st ->
  owner_previewId p = w ->
  containers_get st w = Some (owner p, c) ->
  processes c !! processId p = Some p ->
  clients c = [] ->
  on_connection ws (Some w) (on_idle_timeout w st) = Attached st1 ->
  js.prop data "type" = Some (Some (JStr "terminal-input")) ->
  js.prop data "processId" = Some (Some (JStr (processId p))) ->
  emit p (child_data stream output) st1
  = Some (push_sent [(ws, process_output w (processId p) output stream);
                     (ws, process_output w (processId p) output stream)] st1)
  /\ on_message ws w (Some data) st1 = st1
  /\ exists c', objects st1 !! owner p = Some c' /\ processes c' !! processId p = Some p.
Proof.
  intros [_ Hfresh] Hw Hget Hproc Hnone Hconn Htype Hpid. subst w.
  pose proof Hconn as (Hopen & _)%attached_after_connection.
  revert Hconn. unfold on_idle_timeout. rewrite Hget, Hnone.
  intros (r0 & st0 & Hgoc & ->)%on_connection_Attached.
  apply containers_get_Some in Hget as [Hreg Hobj].
  assert (Hne : owner p <> next_ref st).
  { intros Heq. rewrite Heq, Hfresh in Hobj; done. }
  apply get_or_create_cases in Hgoc as [[_ (c0 & Hc0)]|(_ & -> & d & ->)].
  { unfold containers_get in Hc0. cbn in Hc0. by rewrite lookup_delete_eq in Hc0. }
  set (st1 := push_sent _ _) in *.
  assert (Hget1 : containers_get st1 (owner_previewId p)
                  = Some (next_ref st,
                          {| id := owner_previewId p;
                             dir := path.join data_root (owner_previewId p);
                             clients := [ws]; files := ∅; processes := ∅ |})).
  { subst st1. unfold containers_get. state_simpl.
    by rewrite lookup_insert_eq, lookup_alter_eq, lookup_insert_eq. }
  split; [|split].
  - unfold emit, listeners. destruct (launch p); cbn [fold_left];
      unfold branch_on_data, tail_on_data, broadcastToContainer;
      rewrite Hget1, push_sent_containers_get, Hget1; cbn [clients];
      change (open_ws (push_sent ?m ?s)) with (open_ws s);
      rewrite !filter_cons_True, filter_nil by done;
      by rewrite push_sent_twice.
  - rewrite (type_dispatch ws _ data "terminal-input" st1 _ _ Htype ltac:(done) Hget1).
    cbn [String.eqb Ascii.eqb Bool.eqb]. unfold terminal_input. rewrite Hpid.
    destruct (js.prop data "input") as [input|]; [|done].
    destruct (negb _ || negb _); [done|]. cbn [processes]. by rewrite lookup_empty.
  - exists c. split; [|done]. subst st1. state_simpl.
    by rewrite lookup_alter_ne, lookup_insert_ne.
Qed.

Lemma swept_shell_heard_not_reached_witness :
  emit shell (child_data stdout "late") reattached_state
  = Some (push_sent [(2, process_output "w" "p1" "late" stdout);
                     (2, process_output "w" "p1" "late" stdout)] reattached_state)
  /\ on_message 2 "w" (Some input_message) reattached_state = reattached_state.
Proof.
  destruct (swept_shell_heard_not_reached shell 2 "w" (on_close 1 "w" shell_state)
              reattached_state
              {| id := "w"; dir := "/data/w"; clients := []; files := ∅;
                 processes := {[ "p1" := shell ]} |} stdout "late" input_message)
    as (Hheard & Hinput & _).
  - apply (run_registry_ok [ws_connect 1 "w";
                             http_execute "w" "/bin/bash" [] "/" None "p1";
                             ws_close 1 "w"] (initial ∅));
      [apply registry_ok_initial|repeat constructor|vm_compute; reflexivity].
  - reflexivity.
  - vm_compute. reflexivity.
  - vm_compute. reflexivity.
  - reflexivity.
  - vm_compute. reflexivity.
  - reflexivity.
  - reflexivity.
  - split; [exact Hheard|exact Hinput].
Defined.


